(** * pydrive: the persistent cache, the authenticator and the sync engine

    A shallow embedding of [src/dbdict.py], [src/auth.py] and [src/fsapi.py].
    Python values that travel through [json.loads]/[json.dumps] are modelled
    by the type [json]; a function that can raise returns a [result]; code
    that mutates the cache or the credential threads its state explicitly,
    and keeps the mutations done before an exception was raised. *)

From stdpp Require Import gmap strings list fin_maps pretty.
From Stdlib Require Import ZArith Lia Ascii.

Set Warnings "-register-all".
Open Scope Z_scope.
Open Scope string_scope.

(** ** Python values *)

Module Py.

(** What [json.loads] produces: [None], [bool], [int], [str], [list] and
    [dict] with string keys.  A dict is kept as its list of bindings; a key
    is looked up from the head.  Floats are outside the model. *)
Inductive json : Type :=
  | JNull : json
  | JBool : bool -> json
  | JNum : Z -> json
  | JStr : string -> json
  | JArr : list json -> json
  | JObj : list (string * json) -> json.

(** The exceptions the modelled code raises, with the payload it passes. *)
Inductive exn : Type :=
  | KeyError (key : string)
  | TypeError
  | AttributeError
  | ValueError
  | AssertionError (msg : string)
  | IntegrityError
  | NoTokenError (msg : string)
  | APIError (payload : json)
  | AuthorizationTimeoutError (msg : string)
  | AuthorizationCanceledError (msg : string).

Inductive result (A : Type) : Type :=
  | Ok : A -> result A
  | Raise : exn -> result A.
Arguments Ok {A} _.
Arguments Raise {A} _.

(** [d[key]] and [key in d] on a dict. *)
Fixpoint assoc (k : string) (l : list (string * json)) : option json :=
  match l with
  | [] => None
  | (k', v) :: t => if String.eqb k k' then Some v else assoc k t
  end.

(** Python's [==] on these values; [True == 1] and [False == 0] hold there. *)
Fixpoint py_eq (a b : json) {struct a} : bool :=
  match a, b with
  | JNull, JNull => true
  | JBool x, JBool y => Bool.eqb x y
  | JBool x, JNum n | JNum n, JBool x => Z.eqb n (if x then 1 else 0)
  | JNum n, JNum m => Z.eqb n m
  | JStr s, JStr t => String.eqb s t
  | JArr l, JArr l' =>
      (fix go (l l' : list json) : bool :=
         match l, l' with
         | [], [] => true
         | x :: t, y :: t' => py_eq x y && go t t'
         | _, _ => false
         end) l l'
  | JObj l, JObj l' =>
      Nat.eqb (length l) (length l') &&
      (fix go (l : list (string * json)) : bool :=
         match l with
         | [] => true
         | (k, v) :: t =>
             match assoc k l' with
             | Some v' => py_eq v v' && go t
             | None => false
             end
         end) l
  | _, _ => false
  end.

(** [k in s] on two strings: [k] occurs in [s]. *)
Definition is_substring (k s : string) : bool :=
  match String.index 0 k s with Some _ => true | None => false end.

(** [key in x] for a string [key]: on a dict, membership of the key; on a
    list, membership of the string; on a str, the substring test; the other
    types are not containers and raise [TypeError]. *)
Definition has_key (k : string) (x : json) : result bool :=
  match x with
  | JObj l => Ok (bool_decide (is_Some (assoc k l)))
  | JArr l => Ok (existsb (fun y => py_eq y (JStr k)) l)
  | JStr s => Ok (is_substring k s)
  | _ => Raise TypeError
  end.

(** [x[key]] with a string key. *)
Definition getitem (x : json) (k : string) : result json :=
  match x with
  | JObj l => match assoc k l with Some v => Ok v | None => Raise (KeyError k) end
  | _ => Raise TypeError
  end.

(** [x.get(key)]: [None] when the key is absent. *)
Definition dict_get (x : json) (k : string) : result json :=
  match x with
  | JObj l => Ok (default JNull (assoc k l))
  | _ => Raise AttributeError
  end.

(** Truth value of a Python object, as [assert x] and [x or y] take it. *)
Definition truthy (x : json) : bool :=
  match x with
  | JNull => false
  | JBool b => b
  | JNum n => negb (Z.eqb n 0)
  | JStr s => negb (String.eqb s "")
  | JArr l => negb (Nat.eqb (length l) 0)
  | JObj l => negb (Nat.eqb (length l) 0)
  end.

(** [l.remove(x)]: drops the first element equal to [x], [ValueError] when
    there is none. *)
Fixpoint list_remove (x : json) (l : list json) : option (list json) :=
  match l with
  | [] => None
  | y :: t => if py_eq y x then Some t
              else match list_remove x t with
                   | Some t' => Some (y :: t')
                   | None => None
                   end
  end.

(** *** [str.partition] and [str.rpartition] with a one-character separator *)

(** [s.partition(c)[2]]: what follows the first [c], or [''] without [c]. *)
Fixpoint partition_tail (c : ascii) (s : string) : string :=
  match s with
  | EmptyString => ""
  | String a t => if Ascii.eqb a c then t else partition_tail c t
  end.

(** [c in s]. *)
Fixpoint contains_char (c : ascii) (s : string) : bool :=
  match s with
  | EmptyString => false
  | String a t => Ascii.eqb a c || contains_char c t
  end.

(** [s.rpartition(c)[0]]: what precedes the last [c], or [''] without [c]. *)
Fixpoint rpartition_head (c : ascii) (s : string) : string :=
  match s with
  | EmptyString => ""
  | String a t =>
      if contains_char c t then String a (rpartition_head c t) else ""
  end.

(** Sequencing of two steps that can raise. *)
Definition rbind {A B} (r : result A) (k : A -> result B) : result B :=
  match r with Ok a => k a | Raise e => Raise e end.

(** [s.rstrip(c)]: [s] without its trailing [c]s. *)
Fixpoint rstrip (c : ascii) (s : string) : string :=
  match s with
  | EmptyString => ""
  | String a t =>
      let t' := rstrip c t in
      if String.eqb t' "" && Ascii.eqb a c then "" else String a t'
  end.

End Py.

(** ** The persistent cache ([src/dbdict.py]) *)

Module DBDict.
Import Py.

(** A BLOB of the backing store. *)
Abbreviation blob := string.

(** The table [key BLOB UNIQUE PRIMARY KEY, value BLOB]: at most one row per
    key.  Every statement is followed by a commit in the source, so the
    table is the whole state of the store. *)
Abbreviation table := (gmap blob blob).

(** The statements [DBDict] sends, with their parameters. *)
Inductive stmt : Type :=
  | SelectValue (key : blob)
  | SelectKeys
  | Update (value key : blob)
  | Insert (key value : blob)
  | Delete (key : blob).

(** A cursor after [execute]: the rows to fetch and [rowcount]. *)
Record cursor := mkCursor {
  rows : list blob;
  rowcount : Z
}.

(** What a DB-API driver is free to choose: the [rowcount] it reports after
    a SELECT that produced the given rows. *)
Record dbapi := mkDbapi {
  select_rowcount : list blob -> Z
}.

(** The [sqlite3] module of the standard library, the default [dbapi]: its
    [rowcount] is -1 for every statement that is not an INSERT, UPDATE,
    DELETE or REPLACE. *)
Definition sqlite3 : dbapi := mkDbapi (fun _ => -1).

(** [cur.execute(sql, params)] *)
Definition execute (api : dbapi) (t : table) (s : stmt)
  : result cursor * table :=
  match s with
  | SelectValue k =>
      let rs := match t !! k with Some v => [v] | None => [] end in
      (Ok (mkCursor rs (select_rowcount api rs)), t)
  | SelectKeys =>
      let rs := (map_to_list t).*1 in
      (Ok (mkCursor rs (select_rowcount api rs)), t)
  | Update v k =>
      match t !! k with
      | Some _ => (Ok (mkCursor [] 1), <[k := v]> t)
      | None => (Ok (mkCursor [] 0), t)
      end
  | Insert k v =>
      match t !! k with
      | Some _ => (Raise IntegrityError, t)
      | None => (Ok (mkCursor [] 1), <[k := v]> t)
      end
  | Delete k =>
      match t !! k with
      | Some _ => (Ok (mkCursor [] 1), delete k t)
      | None => (Ok (mkCursor [] 0), t)
      end
  end.

(** [cur.fetchone()] *)
Definition fetchone (c : cursor) : option blob := head (rows c).

(** [cur.fetchall()] *)
Definition fetchall (c : cursor) : list blob := rows c.

Section Codec.

(** The codecs given to the constructor; [dumps] serves keys and values. *)
Context {KT VT : Type}.
Variable api : dbapi.
Variable dumps : KT + VT -> blob.
Variable key_loads : blob -> KT.
Variable value_loads : blob -> VT.
Variable show : KT -> string.

(** [KeyError(key)], the key shown by [show]. *)
Definition key_error {A} (key : KT) : result A := Raise (KeyError (show key)).

Definition __getitem__ (t : table) (key : KT) : result VT :=
  let pickled := dumps (inl key) in
  match fst (execute api t (SelectValue pickled)) with
  | Raise e => Raise e
  | Ok cur =>
      match fetchone cur with
      | None => key_error key
      | Some row => Ok (value_loads row)
      end
  end.

(** [key in self], inherited from [Mapping]: [self[key]] is tried and a
    [KeyError] means absence. *)
Definition __contains__ (t : table) (key : KT) : result bool :=
  match __getitem__ t key with
  | Ok _ => Ok true
  | Raise (KeyError _) => Ok false
  | Raise e => Raise e
  end.

Definition __setitem__ (t : table) (key : KT) (value : VT)
  : result unit * table :=
  let key_pickled := dumps (inl key) in
  let value_pickled := dumps (inr value) in
  match __contains__ t key with
  | Raise e => (Raise e, t)
  | Ok present =>
      let s := if present : bool then Update value_pickled key_pickled
               else Insert key_pickled value_pickled in
      match execute api t s with
      | (Ok _, t') => (Ok tt, t')
      | (Raise e, t') => (Raise e, t')
      end
  end.

Definition __delitem__ (t : table) (key : KT) : result unit * table :=
  match __contains__ t key with
  | Raise e => (Raise e, t)
  | Ok false => (key_error key, t)
  | Ok true =>
      match execute api t (Delete (dumps (inl key))) with
      | (Ok _, t') => (Ok tt, t')
      | (Raise e, t') => (Raise e, t')
      end
  end.

Definition __iter__ (t : table) : result (list KT) :=
  match fst (execute api t SelectKeys) with
  | Ok cur => Ok (map key_loads (fetchall cur))
  | Raise e => Raise e
  end.

Definition __len__ (t : table) : result Z :=
  match fst (execute api t SelectKeys) with
  | Ok cur => Ok (Z.max (rowcount cur) 0)
  | Raise e => Raise e
  end.

(** A sequence of [d[k] = v] statements, stopped by the first that raises. *)
Fixpoint set_all (t : table) (kvs : list (KT * VT)) : result unit * table :=
  match kvs with
  | [] => (Ok tt, t)
  | (k, v) :: rest =>
      match __setitem__ t k v with
      | (Ok _, t') => set_all t' rest
      | (Raise e, t') => (Raise e, t')
      end
  end.

End Codec.

(** A cache of strings kept as they are: every codec is the identity. *)
Definition plain_dumps (x : string + string) : blob :=
  match x with inl k => k | inr v => v end.

Definition plain_loads (b : blob) : string := b.

(** A driver that reports the number of rows of a SELECT. *)
Definition counting : dbapi := mkDbapi (fun rs => Z.of_nat (length rs)).

(** [d.__eq__(other)] for a mapping [other], given by its [len], its [get]
    and the [!=] of its values. *)
Section Equality.

Context {KT VT : Type}.
Variable api : dbapi.
Variable dumps : KT + VT -> blob.
Variable key_loads : blob -> KT.
Variable value_loads : blob -> VT.
Variable show : KT -> string.
Variable other_len : Z.
Variable other_get : KT -> option VT.
Variable differ : VT -> VT -> bool.

(** The loop [for k in self] of [__eq__]. *)
Fixpoint eq_keys (t : table) (ks : list KT) : result bool :=
  match ks with
  | [] => Ok true
  | k :: rest =>
      match other_get k with
      | None => Ok false
      | Some v =>
          match __getitem__ api dumps value_loads show t k with
          | Raise e => Raise e
          | Ok mine => if differ v mine then Ok false else eq_keys t rest
          end
      end
  end.

Definition __eq__ (t : table) : result bool :=
  match __len__ api t with
  | Raise e => Raise e
  | Ok n =>
      if negb (Z.eqb other_len n) then Ok false else
      match __iter__ api key_loads t with
      | Raise e => Raise e
      | Ok ks => eq_keys t ks
      end
  end.

End Equality.

(** [string.replace("'", "''")] *)
Fixpoint double_quotes (s : string) : string :=
  match s with
  | EmptyString => ""
  | String a t =>
      if Ascii.eqb a "'" then String "'" (String "'" (double_quotes t))
      else String a (double_quotes t)
  end.

Definition _quote (s : string) : string := "'" ++ double_quotes s ++ "'".

End DBDict.

(** ** The authenticator ([src/auth.py]) *)

Module Auth.
Import Py.

(** The credential of [GraphAuth]: [None] is [JNull]; [expires] is a point
    of the UTC clock, counted in microseconds as [datetime] does. *)
Record auth := mkAuth {
  _access_token : json;
  expires : Z;
  refresh_token : json
}.

Definition is_none (x : json) : bool :=
  match x with JNull => true | _ => false end.

(** [timedelta(seconds=x)] in microseconds; [bool] is an [int] in Python. *)
Definition timedelta_seconds (x : json) : result Z :=
  match x with
  | JNum n => Ok (n * 1000000)
  | JBool b => Ok (if b then 1000000 else 0)
  | _ => Raise TypeError
  end.

(** [refresh]: [r] is the decoded answer of the token endpoint and [now] the
    clock read once the answer is there.  The three assignments are done one
    after the other, as in the source.  The last component counts the
    requests sent to the token endpoint. *)
Definition refresh (a : auth) (r : json) (now : Z)
  : result json * auth * nat :=
  if is_none (refresh_token a)
  then (Raise (NoTokenError "No refresh token"), a, 0%nat) else
  match has_key "error" r with
  | Raise e => (Raise e, a, 1%nat)
  | Ok true => (Raise (APIError r), a, 1%nat)
  | Ok false =>
      match rbind (getitem r "expires_in") timedelta_seconds with
      | Raise e => (Raise e, a, 1%nat)
      | Ok delta =>
          let a1 := mkAuth (_access_token a) (now + delta) (refresh_token a) in
          match getitem r "refresh_token" with
          | Raise e => (Raise e, a1, 1%nat)
          | Ok rt =>
              let a2 := mkAuth (_access_token a1) (expires a1) rt in
              match getitem r "access_token" with
              | Raise e => (Raise e, a2, 1%nat)
              | Ok at_ =>
                  let a3 := mkAuth at_ (expires a2) (refresh_token a2) in
                  (Ok (_access_token a3), a3, 1%nat)
              end
          end
      end
  end.

(** The property [access_token]: [now] is the clock at the expiry test; [r]
    and [now'] are handed to [refresh] when it is called. *)
Definition access_token (a : auth) (now : Z) (r : json) (now' : Z)
  : result json * auth * nat :=
  if is_none (_access_token a) && is_none (refresh_token a)
  then (Raise (NoTokenError "No refresh token or access token"), a, 0%nat) else
  if Z.ltb (expires a) now || is_none (_access_token a)
  then match refresh a r now' with
       | (Ok _, a', sent) => (Ok (_access_token a'), a', sent)
       | (Raise e, a', sent) => (Raise e, a', sent)
       end
  else (Ok (_access_token a), a, 0%nat).

(** [time.sleep(x)] accepts a non-negative number. *)
Definition sleep_arg (x : json) : result Z :=
  match x with
  | JNum n => if Z.ltb n 0 then Raise ValueError else Ok n
  | JBool b => Ok (if b then 1 else 0)
  | _ => Raise TypeError
  end.

(** How the polling loop of [authenticate] ends. *)
Inductive poll_end : Type :=
  | Granted (data : json)
  | Expired
  | Raised (e : exn)
  | NoAnswer.

(** The [while datetime.utcnow() < expires] loop.  Each element of [polls]
    is the clock read by the loop test and the decoded answer the token
    endpoint gives if the body runs.  The sleeps are collected, in seconds. *)
Fixpoint poll_token (deadline : Z) (interval : json) (polls : list (Z * json))
  : poll_end * list Z :=
  match polls with
  | [] => (NoAnswer, [])
  | (now, r) :: rest =>
      if negb (Z.ltb now deadline) then (Expired, []) else
      match has_key "error" r with
      | Raise e => (Raised e, [])
      | Ok false => (Granted r, [])
      | Ok true =>
          match getitem r "error" with
          | Raise e => (Raised e, [])
          | Ok err =>
              if py_eq err (JStr "authorization_pending") then
                match sleep_arg interval with
                | Raise e => (Raised e, [])
                | Ok secs =>
                    let (fin, sleeps) := poll_token deadline interval rest in
                    (fin, secs :: sleeps)
                end
              else if py_eq err (JStr "authorization_pending") then
                (Raised (AuthorizationCanceledError "User canceled authorization"), [])
              else (Raised (APIError r), [])
          end
      end
  end.

(** [authenticate]: [r0] answers the device-code request, read at [now0];
    [with_callback] tells whether a callback was passed; [now1] is the clock
    when the grant is stored.  [None]: the answers ran out while the loop
    was still polling. *)
Definition authenticate (a : auth) (with_callback : bool) (r0 : json)
    (now0 : Z) (polls : list (Z * json)) (now1 : Z)
  : option (result json * auth * list Z) :=
  let fail {A} (e : exn) : option (result A * auth * list Z) :=
    Some (Raise e, a, []) in
  match has_key "error" r0 with
  | Raise e => fail e
  | Ok true => fail (APIError r0)
  | Ok false =>
  match rbind (getitem r0 "expires_in") timedelta_seconds with
  | Raise e => fail e
  | Ok delta =>
  let deadline := now0 + delta in
  match (if with_callback
         then rbind (getitem r0 "user_code") (fun _ => getitem r0 "verification_uri")
         else getitem r0 "message") with
  | Raise e => fail e
  | Ok _ =>
  match getitem r0 "device_code" with
  | Raise e => fail e
  | Ok _ =>
  match getitem r0 "interval" with
  | Raise e => fail e
  | Ok interval =>
  match poll_token deadline interval polls with
  | (NoAnswer, _) => None
  | (Raised e, sleeps) => Some (Raise e, a, sleeps)
  | (Expired, sleeps) =>
      Some (Raise (AuthorizationTimeoutError "User authorization timed out"), a, sleeps)
  | (Granted data, sleeps) =>
      match rbind (getitem data "expires_in") timedelta_seconds with
      | Raise e => Some (Raise e, a, sleeps)
      | Ok delta' =>
          let a1 := mkAuth (_access_token a) (now1 + delta') (refresh_token a) in
          match getitem data "access_token" with
          | Raise e => Some (Raise e, a1, sleeps)
          | Ok at_ =>
              let a2 := mkAuth at_ (expires a1) (refresh_token a1) in
              match data with
              | JObj l =>
                  let a3 := mkAuth (_access_token a2) (expires a2)
                              (default (refresh_token a2) (assoc "refresh_token" l)) in
                  Some (Ok (_access_token a3), a3, sleeps)
              | _ => Some (Raise AttributeError, a2, sleeps)
              end
          end
      end
  end end end end end end.

(** Is this outcome a [NoTokenError]? *)
Definition is_no_token_error {A} (r : result A) : bool :=
  match r with Raise (NoTokenError _) => true | _ => false end.

(** The headers of a prepared request, as [requests] stores them: under
    the lower-cased name, the name as it was given and the value. *)
Abbreviation http_headers := (gmap string (string * string)).

(** [__call__]: the request gets ['Bearer ' + self.access_token] unless it
    has an Authorization header already.  [now], [r] and [now'] are those of
    the read of [access_token]. *)
Definition __call__ (a : auth) (hs : http_headers) (now : Z) (r : json)
    (now' : Z) : result http_headers * auth * nat :=
  if bool_decide (is_Some (hs !! "authorization")) then (Ok hs, a, 0%nat) else
  match access_token a now r now' with
  | (Raise e, a', sent) => (Raise e, a', sent)
  | (Ok (JStr tok), a', sent) =>
      (Ok (<["authorization" := ("Authorization", "Bearer " ++ tok)]> hs), a', sent)
  | (Ok _, a', sent) => (Raise TypeError, a', sent)
  end.

(** The two ways a sign-in is turned down: [APIError] and
    [AuthorizationTimeoutError]. *)
Definition is_sign_in_failure (e : exn) : bool :=
  match e with
  | APIError _ | AuthorizationTimeoutError _ => true
  | _ => false
  end.

End Auth.

(** ** The sync engine ([src/fsapi.py]) *)

Module FsApi.
Import Py.

(** What the engine does to the outside: writes and deletions in the drive's
    cache (each one committed at once by the cache), polls of the change
    feed, and sleeps. *)
Inductive event : Type :=
  | EvSet (key : string) (value : json)
  | EvDel (key : string)
  | EvPoll (url : json)
  | EvSleep.

(** [GraphDrive._cache] as the engine sees it through the mapping interface,
    with the events so far, latest last. *)
Record drive := mkDrive {
  cache : gmap string json;
  trace : list event
}.

(** A computation on the drive: it yields a value or raises, and in both
    cases hands back the drive with the mutations done so far. *)
Definition M (A : Type) : Type := drive -> result A * drive.

Definition ret {A} (a : A) : M A := fun d => (Ok a, d).
Definition raise {A} (e : exn) : M A := fun d => (Raise e, d).
Definition bind {A B} (m : M A) (k : A -> M B) : M B :=
  fun d => match m d with
           | (Ok a, d') => k a d'
           | (Raise e, d') => (Raise e, d')
           end.
Definition lift {A} (r : result A) : M A := fun d => (r, d).

Notation "'let!' x ':=' m 'in' k" := (bind m (fun x => k))
  (at level 10, x pattern, m at level 100, k at level 200).
Notation "'do!' m 'in' k" := (bind m (fun _ => k))
  (at level 10, m at level 100, k at level 200).

(** [key in self._cache] *)
Definition cache_contains (k : string) : M bool :=
  fun d => (Ok (bool_decide (is_Some (cache d !! k))), d).

(** [self._cache.get(key, default)] *)
Definition cache_get (k : string) (dflt : json) : M json :=
  fun d => (Ok (default dflt (cache d !! k)), d).

(** [self._cache[key] = value] *)
Definition cache_set (k : string) (v : json) : M unit :=
  fun d => (Ok tt, mkDrive (<[k := v]> (cache d)) (trace d ++ [EvSet k v])).

(** [self._cache.pop(key)]: [KeyError] when the key is absent. *)
Definition cache_pop (k : string) : M json :=
  fun d => match cache d !! k with
           | Some v => (Ok v, mkDrive (delete k (cache d)) (trace d ++ [EvDel k]))
           | None => (Raise (KeyError k), d)
           end.

Definition log (e : event) : M unit :=
  fun d => (Ok tt, mkDrive (cache d) (trace d ++ [e])).

(** [a + b] where [a] is a str. *)
Definition str_add (a : string) (b : json) : result string :=
  match b with
  | JStr s => Ok (a ++ s)
  | _ => Raise TypeError
  end.

(** [x.partition(':')[2]] *)
Definition partition_colon (x : json) : result string :=
  match x with
  | JStr s => Ok (partition_tail ":"%char s)
  | _ => Raise AttributeError
  end.

Definition _get_path (item : json) : result string :=
  rbind (has_key "root" item) (fun is_root =>
  if is_root : bool then Ok "/" else
  rbind (getitem item "parentReference") (fun pr =>
  rbind (getitem pr "path") (fun pp =>
  rbind (partition_colon pp) (fun tail =>
  rbind (getitem item "name") (fun name =>
  str_add (tail ++ "/") name))))).

(** [parchildren.remove(item['name'])] *)
Definition children_remove (parchildren item : json) : result json :=
  match parchildren with
  | JArr l =>
      rbind (getitem item "name") (fun name =>
      match list_remove name l with
      | Some l' => Ok (JArr l')
      | None => Raise ValueError
      end)
  | _ => Raise AttributeError
  end.

(** [parchildren.append(item['name'])] *)
Definition children_append (parchildren item : json) : result json :=
  match parchildren with
  | JArr l => rbind (getitem item "name") (fun name => Ok (JArr (l ++ [name])))
  | _ => Raise AttributeError
  end.

Definition _deleted (item : json) : M unit :=
  let! path := lift (_get_path item) in
  let! present := cache_contains path in
  if negb present then ret tt else
  do! cache_pop path in
  let! is_folder := lift (has_key "folder" item) in
  do! (if is_folder : bool then do! cache_pop ("c" ++ path) in ret tt else ret tt) in
  let parent := rpartition_head "/"%char path in
  let! paritem := cache_get parent JNull in
  if negb (truthy paritem)
  then raise (AssertionError ("Who is the parent of " ++ path ++ "?")) else
  let! parchildren := cache_get ("c" ++ parent) (JArr []) in
  let! parchildren' := lift (children_remove parchildren item) in
  cache_set ("c" ++ parent) parchildren'.

Definition _added (item : json) : M unit :=
  let! path := lift (_get_path item) in
  let parent := let p := rpartition_head "/"%char path in
                if String.eqb p "" then "/" else p in
  let! is_root := lift (has_key "root" item) in
  if is_root : bool then ret tt else
  let! parchildren := cache_get ("c" ++ parent) (JArr []) in
  let! parchildren' := lift (children_append parchildren item) in
  cache_set ("c" ++ parent) parchildren'.

(** The body of [for item in items] in [_poll_with_delta]. *)
Definition apply_item (item : json) : M unit :=
  let! is_deleted := lift (has_key "deleted" item) in
  if is_deleted : bool then _deleted item else
  let! path := lift (_get_path item) in
  let! present := cache_contains path in
  do! (if negb present then _added item else ret tt) in
  cache_set path item.

Fixpoint apply_items (items : list json) : M unit :=
  match items with
  | [] => ret tt
  | item :: rest => do! apply_item item in apply_items rest
  end.

(** [for item in items]: a list yields its elements, a dict its keys, a str
    its characters; the other types are not iterable. *)
Definition py_iter (x : json) : result (list json) :=
  match x with
  | JArr l => Ok l
  | JObj l => Ok (map (fun kv => JStr (fst kv)) l)
  | JStr s => Ok (map (fun c => JStr (String c EmptyString)) (String.list_ascii_of_string s))
  | _ => Raise TypeError
  end.

(** One pass of the inner [while nextlink] loop of [_poll_with_delta] after
    [session.get(nextlink).json()] has returned [r]; yields the next link. *)
Definition poll_page (r : json) : M json :=
  let! items := lift (getitem r "value") in
  let! nextlink := lift (dict_get r "@odata.nextLink") in
  let! has_delta := lift (has_key "@odata.deltaLink" r) in
  do! (if has_delta : bool
       then let! link := lift (getitem r "@odata.deltaLink") in
            cache_set "delta" link
       else ret tt) in
  let! its := lift (py_iter items) in
  do! apply_items its in
  ret nextlink.

Definition root_delta_url (id : string) : string :=
  "https://graph.microsoft.com/v1.0/drives/" ++ id ++ "/root/delta".

(** [self._delta_link or '.../root/delta'] at the top of [while True]. *)
Definition first_link (id : string) : M json :=
  let! link := cache_get "delta" (JStr "") in
  ret (if truthy link then link else JStr (root_delta_url id)).

(** [_poll_with_delta] never returns; it is run here against the answers of
    the change feed, one per request, [None] standing for a request or a
    decoding that raised.  The run stops where the answers end. *)
Fixpoint poll_from (id : string) (net : list (option json)) (nextlink : json)
  : M unit :=
  match net with
  | [] => ret tt
  | answer :: net' =>
      do! log (EvPoll nextlink) in
      match answer with
      | None => do! log EvSleep in poll_from id net' nextlink
      | Some r =>
          let! next := poll_page r in
          if truthy next then poll_from id net' next
          else do! log EvSleep in
               let! link := first_link id in
               poll_from id net' link
      end
  end.

Definition _poll_with_delta (id : string) (net : list (option json)) : M unit :=
  let! link := first_link id in poll_from id net link.

(** *** Reading content ([GraphDriveItem]) *)

Record request := mkRequest {
  url : string;
  headers : list (string * json)
}.

(** A response of the [requests] library: [location] is the header of that
    name when the server sent one. *)
Record response := mkResponse {
  status_code : Z;
  location : option string;
  content : string
}.

(** [r.next] of a response fetched with [allow_redirects=False]: [requests]
    prepares the follow-up request when the response is a redirect, that is
    when it carries a location and one of the redirect statuses. *)
Definition next (req : request) (r : response) : option request :=
  match location r with
  | Some target =>
      if bool_decide (status_code r ∈ [301; 302; 303; 307; 308]) && negb (String.eqb target "")
      then Some (mkRequest target (headers req)) else None
  | None => None
  end.

Definition _propurl (id path : string) : string :=
  if String.eqb path "/"
  then "https://graph.microsoft.com/v1.0/drives/" ++ id ++ "/root"
  else "https://graph.microsoft.com/v1.0/drives/" ++ id ++ "/root:" ++ path ++ ":".

(** [self.data], a read of [self._drive._cache[self.path]]. *)
Definition data (c : gmap string json) (path : string) : result json :=
  match c !! path with
  | Some v => Ok v
  | None => Raise (KeyError path)
  end.

Definition is_folder (c : gmap string json) (path : string) : result bool :=
  rbind (data c path) (has_key "folder").

(** ['bytes=%d-%s' % (offset, (offset + size - 1) if size else '')] *)
Definition range_header (offset : Z) (size : option Z) : string :=
  "bytes=" ++ pretty offset ++ "-" ++
  match size with
  | Some n => if Z.eqb n 0 then "" else pretty (offset + n - 1)
  | None => ""
  end.

(** [get_contents]: the result ([None] of Python is [None] here, bytes are
    [Some]) and the requests sent, in order.  [http] answers a request. *)
Definition get_contents (http : request -> response) (id : string)
    (c : gmap string json) (path : string) (offset size : option Z)
  : result (option string) * list request :=
  match is_folder c path with
  | Raise e => (Raise e, [])
  | Ok true => (Ok None, [])
  | Ok false =>
      if match size with Some n => Z.leb n 0 | None => false end
      then (Ok (Some ""), [])
      else
        let ctag := c !! ("t" ++ path) in
        let headers0 := match ctag with
                        | None | Some JNull => []
                        | Some tag => [("if-none-match", tag)]
                        end in
        let headers1 :=
          if bool_decide (is_Some offset) || bool_decide (is_Some size)
          then let offset' := match offset with
                              | Some o => if Z.eqb o 0 then 0 else o
                              | None => 0
                              end in
               (headers0 ++ [("range", JStr (range_header offset' size))])%list
          else headers0 in
        let req := mkRequest (_propurl id path ++ "/content") headers1 in
        let r := http req in
        if Z.eqb (status_code r) 304 then (Ok (Some ""), [req])
        else if Z.leb 400 (status_code r) then (Ok None, [req])
        else match next req r with
             | Some req' => (Ok (Some (content (http req'))), [req; req'])
             | None => (Ok (Some (content r)), [req])
             end
  end.

(** *** The items of a drive and the choice of its cache *)

(** [GraphDrive.get_item_by_path]: an item for the path when the cache has
    the path, [None] otherwise.  An item is its path. *)
Definition get_item_by_path (c : gmap string json) (path : string)
  : option string :=
  if bool_decide (is_Some (c !! path)) then Some path else None.

Definition is_file (c : gmap string json) (path : string) : result bool :=
  rbind (data c path) (has_key "file").

(** [GraphDriveItem.children]: [None] for an item that is not a folder. *)
Definition children (c : gmap string json) (path : string)
  : result (option json) :=
  rbind (is_folder c path) (fun folder =>
  if folder : bool
  then Ok (Some (default (JArr []) (c !! ("c" ++ path))))
  else Ok None).

Definition _pathurl (id path : string) : string :=
  if String.eqb path "/"
  then "https://graph.microsoft.com/v1.0/drives/" ++ id ++ "/root:"
  else "https://graph.microsoft.com/v1.0/drives/" ++ id ++ "/root:" ++ path.

(** The cache [GraphDrives._get_drive_cache] hands out: the shared mapping
    seen through the keys of one drive, or a table of its own on disk. *)
Inductive drive_cache : Type :=
  | Shared (id : string)
  | OnDisk (cachedir filename : string).

(** [GraphDrives.__init__] followed by [_get_drive_cache(id)]; [md5hex] is
    [md5(...).hexdigest()]. *)
Definition _get_drive_cache (md5hex : string -> string)
    (cache : option (gmap string json)) (cachedir : option string)
    (id : string) : result drive_cache :=
  match cache, cachedir with
  | Some _, Some _ => Raise ValueError
  | _, _ =>
      let cache' := match cache, cachedir with
                    | None, None => Some ∅
                    | _, _ => cache
                    end in
      if match cache' with
         | Some m => negb (bool_decide (m = ∅))
         | None => false
         end
      then Ok (Shared id)
      else match cachedir with
           | Some dir => Ok (OnDisk dir ("drv-" ++ md5hex id))
           | None => Raise (AssertionError "")
           end
  end.

(** *** Observations on the trace *)

(** The write of the delta cursor, [self._cache['delta'] = link]. *)
Definition is_cursor_write (e : event) : bool :=
  match e with
  | EvSet k _ => String.eqb k "delta"
  | _ => false
  end.

(** The events of one page: what [poll_page] adds to the trace. *)
Definition page_events (d : drive) (r : json) : list event :=
  drop (length (trace d)) (trace (snd (poll_page r d))).

(** The order the claim asks for: within a page, every event that is not
    the cursor write comes before the cursor write. *)
Definition cursor_after_items (evs : list event) : Prop :=
  forall (i j : nat) (e1 e2 : event),
    evs !! i = Some e1 -> evs !! j = Some e2 ->
    is_cursor_write e1 = true -> is_cursor_write e2 = false ->
    (j < i)%nat.

(** [m] only adds events that satisfy [P] to the trace. *)
Definition appends {A} (P : event -> Prop) (m : M A) : Prop :=
  forall d, exists evs, trace (snd (m d)) = (trace d ++ evs)%list /\ Forall P evs.

(** The request [get_contents] sends for a window of the file at [path]. *)
Definition window_request (id : string) (c : gmap string json)
    (path : string) (offset : Z) (size : option Z) : request :=
  let headers0 := match c !! ("t" ++ path) with
                  | None | Some JNull => []
                  | Some tag => [("if-none-match", tag)]
                  end in
  mkRequest (_propurl id path ++ "/content")
    (headers0 ++ [("range", JStr (range_header offset size))])%list.

(** The parent as [_added] takes it: ['/'] for an item under the root. *)
Definition added_parent (path : string) : string :=
  let p := rpartition_head "/" path in if String.eqb p "" then "/" else p.

(** [m] leaves the entry under [k] as it is, however it ends. *)
Definition preserves {A} (k : string) (m : M A) : Prop :=
  forall d, cache (snd (m d)) !! k = cache d !! k.

End FsApi.

(** ** The keys of one drive in a shared cache ([_DriveCache]) *)

Module DriveCache.
Import Py.

(** ['%s.%s' % (self._drive_id, key)] *)
Definition drive_key (id key : string) : string := id ++ "." ++ key.

Definition __getitem__ (id : string) (c : gmap string json) (key : string)
  : result json :=
  match c !! drive_key id key with
  | Some v => Ok v
  | None => Raise (KeyError (drive_key id key))
  end.

Definition __setitem__ (id : string) (c : gmap string json) (key : string)
    (value : json) : gmap string json :=
  <[drive_key id key := value]> c.

Definition __delitem__ (id : string) (c : gmap string json) (key : string)
  : result unit * gmap string json :=
  match c !! drive_key id key with
  | Some _ => (Ok tt, delete (drive_key id key) c)
  | None => (Raise (KeyError (drive_key id key)), c)
  end.

End DriveCache.

(** ** The filesystem calls ([src/fs.py]) *)

Module Fs.
Import Py FsApi.

(** The constants of [errno], [os] and [stat] the calls use. *)
Record platform := mkPlatform {
  ENOENT : Z;
  ENOTSUP : Z;
  O_WRONLY : Z;
  O_RDWR : Z;
  S_IFDIR : Z;
  S_IFREG : Z
}.

(** Their values on Linux. *)
Definition linux : platform := mkPlatform 2 95 1 2 16384 32768.

(** [fuse.Direntry(name, type=typ)] *)
Record direntry := mkDirentry {
  name : json;
  type : Z
}.

Section Calls.

Variable pf : platform.

(** [str(x)], as ['%s' % x] takes it. *)
Variable py_str : json -> string.

(** [OnedriveFS.open]: [None] of Python is [None] here. *)
Definition open (c : gmap string json) (path : string) (flags : Z)
  : result (option Z) :=
  match get_item_by_path c path with
  | None => Ok (Some (- ENOENT pf))
  | Some file =>
      rbind (is_file c file) (fun f =>
      if negb f then Ok (Some (- ENOENT pf))
      else if negb (Z.eqb (Z.land flags (Z.lor (O_RDWR pf) (O_WRONLY pf))) 0)
           then Ok (Some (- ENOTSUP pf))
           else Ok None)
  end.

(** The loop [for item in folder.children] of [readdir]. *)
Fixpoint readdir_children (c : gmap string json) (dir : string)
    (items : list json) : result (list direntry) :=
  match items with
  | [] => Ok []
  | item :: rest =>
      let path := rstrip "/" dir ++ "/" ++ py_str item in
      match get_item_by_path c path with
      | None => readdir_children c dir rest
      | Some itemobj =>
          rbind (is_folder c itemobj) (fun folder =>
          let typ := if folder : bool then S_IFDIR pf else S_IFREG pf in
          rbind (readdir_children c dir rest) (fun entries =>
          Ok (mkDirentry item typ :: entries)))
      end
  end.

(** [OnedriveFS.readdir]: an error number or the entries. *)
Definition readdir (c : gmap string json) (dir : string) (offset : Z)
  : result (Z + list direntry) :=
  if negb (Z.eqb offset 0) then Ok (inl (- ENOTSUP pf)) else
  match get_item_by_path c dir with
  | None => Ok (inl (- ENOENT pf))
  | Some folder =>
      rbind (is_folder c folder) (fun f =>
      if negb f then Ok (inl (- ENOENT pf)) else
      rbind (children c folder) (fun names =>
      match names with
      | None => Raise TypeError
      | Some names' =>
          rbind (py_iter names') (fun items =>
          rbind (readdir_children c dir items) (fun entries =>
          Ok (inr (mkDirentry (JStr ".") (S_IFDIR pf)
                   :: mkDirentry (JStr "..") (S_IFDIR pf) :: entries))))
      end))
  end.

(** [OnedriveFS.read]: an error number, or what [get_contents] returns,
    with the requests sent. *)
Definition read (http : request -> response) (id : string)
    (c : gmap string json) (path : string) (size offset : Z)
  : result (Z + option string) * list request :=
  match get_item_by_path c path with
  | None => (Ok (inl (- ENOENT pf)), [])
  | Some item =>
      match get_contents http id c item (Some offset) (Some size) with
      | (Ok contents, reqs) => (Ok (inr contents), reqs)
      | (Raise e, reqs) => (Raise e, reqs)
      end
  end.

End Calls.

End Fs.

(** ** The inputs of the scenarios *)

Module Cases.
Import Py Auth FsApi.

(** The items of Scenario A and the deletion of Scenario B; the deleted item
    is given once with and once without its folder facet. *)
Definition root_item : json :=
  JObj [("id", JStr "1"); ("root", JBool true)].

Definition docs_item : json :=
  JObj [("id", JStr "2");
        ("parentReference", JObj [("path", JStr "/drive/root:")]);
        ("name", JStr "docs");
        ("folder", JObj [])].

Definition docs_deleted : json :=
  JObj [("id", JStr "2");
        ("parentReference", JObj [("path", JStr "/drive/root:")]);
        ("name", JStr "docs");
        ("deleted", JObj [])].

Definition docs_folder_deleted : json :=
  JObj [("id", JStr "2");
        ("parentReference", JObj [("path", JStr "/drive/root:")]);
        ("name", JStr "docs");
        ("folder", JObj []);
        ("deleted", JObj [])].

Definition page (items : list json) (link : string) : json :=
  JObj [("value", JArr items); ("@odata.deltaLink", JStr link)].

Definition fresh : drive := mkDrive ∅ [].

(** The drive after the page of Scenario A. *)
Definition after_A : drive :=
  snd (poll_page (page [root_item; docs_item] "delta-1") fresh).

Definition report_item : json :=
  JObj [("id", JStr "3");
        ("parentReference", JObj [("path", JStr "/drive/root:/docs")]);
        ("name", JStr "report.txt");
        ("file", JObj [])].

(** A server that answers every request with 206 and five bytes. *)
Definition five_bytes (_ : request) : response := mkResponse 206 None "klmno".

Definition invalid_grant : json :=
  JObj [("error", JStr "invalid_grant");
        ("error_description", JStr "The refresh token has expired.")].

Definition signed_in : auth := mkAuth (JStr "at-1") 1000000 (JStr "rt-1").

(** The answer of the device-code request. *)
Definition device_code_answer : json :=
  JObj [("user_code", JStr "ABCD-EFGH");
        ("device_code", JStr "dc-1");
        ("verification_uri", JStr "https://microsoft.com/devicelogin");
        ("expires_in", JNum 900);
        ("interval", JNum 5);
        ("message", JStr "To sign in, open the page and enter the code.")].

Definition pending : json := JObj [("error", JStr "authorization_pending")].

(** The answer of the token endpoint once the user has refused. *)
Definition declined : json :=
  JObj [("error", JStr "authorization_declined");
        ("error_description", JStr "The user declined the request.")].

Definition signed_out : auth := mkAuth JNull 0 JNull.

End Cases.

(** ** Further inputs *)

Module MoreCases.
Import Py Auth FsApi Cases.

(** The file of Scenario C once it is deleted. *)
Definition report_deleted : json :=
  JObj [("id", JStr "3");
        ("parentReference", JObj [("path", JStr "/drive/root:/docs")]);
        ("name", JStr "report.txt");
        ("deleted", JObj [])].





(** [str] on the names of the witnesses, which are strings. *)
Definition str_of (x : json) : string :=
  match x with JStr s => s | _ => "" end.

End MoreCases.

(** * Properties *)

(** ** Sync engine: applying delta items *)

Section ApplyItems.
Import Py FsApi Cases.

Example scenario_A :
  cache after_A !! "c/" = Some (JArr [JStr "docs"]) /\
  cache after_A !! "/docs" = Some docs_item /\
  has_key "folder" docs_item = Ok true.
Proof. vm_compute. auto. Qed.

(** The loop on a fresh drive: a request that fails is retried after a
    sleep with the same link; the page of Scenario A is then applied and,
    having no next link, is followed by the sleep that ends the round. *)
Example poll_run_scenario_A :
  let feed := JStr (root_delta_url "d1") in
  let out := _poll_with_delta "d1"
               [None; Some (page [root_item; docs_item] "delta-1")] fresh in
  fst out = Ok tt /\
  cache (snd out) = cache after_A /\
  trace (snd out) =
    ([EvPoll feed; EvSleep; EvPoll feed] ++ trace after_A ++ [EvSleep])%list.
Proof. vm_compute. auto. Qed.

Ltac run := unfold bind, lift, ret, raise, cache_contains, cache_get; simpl.

Lemma _deleted_absent (d : drive) (item : json) (path : string) :
  _get_path item = Ok path ->
  cache d !! path = None ->
  _deleted item d = (Ok tt, d).
Proof.
  intros Hp Hc. unfold _deleted. run. rewrite Hp. simpl. rewrite Hc.
  rewrite bool_decide_eq_false_2 by (intros [? ?]; discriminate).
  reflexivity.
Qed.

(** C10: a deleted item whose path has no entry in the cache is skipped:
    [_deleted], and so the loop body on that item, returns normally and
    hands back the very same drive: no key added, removed or changed, no
    event, no exception. *)
Theorem deleted_absent_is_noop (d : drive) (item : json) (path : string) :
  has_key "deleted" item = Ok true ->
  _get_path item = Ok path ->
  cache d !! path = None ->
  _deleted item d = (Ok tt, d) /\ apply_item item d = (Ok tt, d).
Proof.
  intros Hd Hp Hc. split.
  - by apply _deleted_absent with path.
  - unfold apply_item. run. rewrite Hd. simpl.
    by apply _deleted_absent with path.
Qed.

Lemma deleted_absent_is_noop_witness :
  _deleted docs_deleted fresh = (Ok tt, fresh) /\
  apply_item docs_deleted fresh = (Ok tt, fresh).
Proof.
  apply (deleted_absent_is_noop fresh docs_deleted "/docs");
    [reflexivity | reflexivity | apply lookup_empty].
Defined.

(** What the loop body leaves behind when it ends normally on an item that
    is not deleted: the item is stored under its path. *)
Lemma apply_item_stores (d d' : drive) (item : json) :
  has_key "deleted" item = Ok false ->
  apply_item item d = (Ok tt, d') ->
  exists path, _get_path item = Ok path /\ cache d' !! path = Some item.
Proof.
  intros Hd. unfold apply_item. run. rewrite Hd. simpl.
  destruct (_get_path item) as [path|e] eqn:Hp; simpl; [|discriminate].
  destruct (if negb _ then _ else _) as [[[]|e] d1] eqn:Hadd;
    simpl; [|discriminate].
  unfold cache_set. intros [= <-]. exists path. split; [done|].
  simpl. apply lookup_insert_eq.
Qed.

(** Wherever an item sits under its own path, the loop body rewrites that
    entry with the same value and touches nothing else. *)
Lemma apply_item_stored (d : drive) (item : json) (path : string) :
  has_key "deleted" item = Ok false ->
  _get_path item = Ok path ->
  cache d !! path = Some item ->
  apply_item item d = (Ok tt, mkDrive (cache d) (trace d ++ [EvSet path item])).
Proof.
  intros Hd Hp Hc. unfold apply_item. run. rewrite Hd. simpl. rewrite Hp.
  simpl. rewrite Hc. rewrite bool_decide_eq_true_2 by (by eexists). simpl.
  unfold cache_set. by rewrite insert_id.
Qed.

(** C7: once a non-deleted item has been applied, it sits under its path,
    and applying it again, there or in any later state that still holds it,
    ends normally and leaves the whole cache as it is: [item[path]] keeps
    its value and the name is not appended again to the children of the
    parent.  The second pass does one thing only, it writes the same item
    under its path once more. *)
Theorem apply_item_idempotent (d d' : drive) (item : json) :
  has_key "deleted" item = Ok false ->
  apply_item item d = (Ok tt, d') ->
  exists path,
    _get_path item = Ok path /\
    cache d' !! path = Some item /\
    apply_item item d' =
      (Ok tt, mkDrive (cache d') (trace d' ++ [EvSet path item])) /\
    cache (snd (apply_item item d')) = cache d' /\
    forall later : drive,
      cache later !! path = Some item ->
      cache (snd (apply_item item later)) = cache later.
Proof.
  intros Hd Hrun.
  destruct (apply_item_stores d d' item Hd Hrun) as (path & Hp & Hc).
  exists path. split; [done|]. split; [done|].
  split; [by apply apply_item_stored|].
  split; [by rewrite (apply_item_stored d' item path)|].
  intros later Hl. by rewrite (apply_item_stored later item path).
Qed.

Lemma apply_item_idempotent_witness :
  exists path,
    _get_path docs_item = Ok path /\
    cache after_A !! path = Some docs_item /\
    apply_item docs_item after_A =
      (Ok tt, mkDrive (cache after_A) (trace after_A ++ [EvSet path docs_item])) /\
    cache (snd (apply_item docs_item after_A)) = cache after_A /\
    forall later : drive,
      cache later !! path = Some docs_item ->
      cache (snd (apply_item docs_item later)) = cache later.
Proof.
  apply (apply_item_idempotent
           (snd (apply_item root_item (snd (cache_set "delta" (JStr "delta-1") fresh))))
           after_A docs_item).
  - reflexivity.
  - vm_compute. reflexivity.
Defined.

(** [rpartition('/')[0]] of a top-level path is empty. *)
Lemma rpartition_head_top (name : string) :
  contains_char "/" name = false ->
  rpartition_head "/" (String "/" name) = "".
Proof. intros H. simpl. by rewrite H. Qed.

(** X7: a deletion of an item that sits directly under the root never reaches
    the children of the root: [_deleted] looks the parent up under [''],
    where [_added] had filed the name under ['/'], and so it raises, with the
    item entry already gone.  It holds in every cache that has no entry
    under [''], and the engine writes none. *)
Lemma _deleted_top_level_raises (d : drive) (item v : json) (name : string) :
  _get_path item = Ok (String "/" name) ->
  contains_char "/" name = false ->
  name <> "" ->
  cache d !! String "/" name = Some v ->
  cache d !! "" = None ->
  exists e d', _deleted item d = (Raise e, d') /\
               cache d' !! String "/" name = None /\
               cache d' !! "c/" = cache d !! "c/".
Proof.
  intros Hp Hname Hne Hv Hempty. unfold _deleted. run. rewrite Hp. simpl.
  rewrite Hv. rewrite bool_decide_eq_true_2 by (by eexists). simpl.
  unfold cache_pop at 1. rewrite Hv. simpl.
  assert (Hc : "c/" <> String "/" name) by discriminate.
  assert (He : "" <> String "/" name) by discriminate.
  assert (Hcc : "c/" <> String "c" (String "/" name)).
  { intros [= <-]. by apply Hne. }
  assert (Hec : "" <> String "c" (String "/" name)) by discriminate.
  destruct (has_key "folder" item) as [[|]|e]; simpl.
  - unfold cache_pop. simpl.
    destruct (delete _ (cache d) !! _) as [w|] eqn:Hw; simpl.
    + rewrite Hname. simpl.
      rewrite !lookup_delete_ne, Hempty by done. simpl.
      eexists _, _. split; [reflexivity|]. simpl.
      split; [|by rewrite !lookup_delete_ne by done].
      rewrite lookup_delete_ne by discriminate. apply lookup_delete_eq.
    + eexists _, _. split; [reflexivity|]. simpl.
      split; [apply lookup_delete_eq|by rewrite lookup_delete_ne by done].
  - rewrite Hname. simpl. rewrite lookup_delete_ne, Hempty by done. simpl.
    eexists _, _. split; [reflexivity|]. simpl.
    split; [apply lookup_delete_eq|by rewrite lookup_delete_ne by done].
  - eexists _, _. split; [reflexivity|]. simpl.
    split; [apply lookup_delete_eq|by rewrite lookup_delete_ne by done].
Qed.

(** C1: Scenario B on the code.  After the page of Scenario A, the page that
    marks the docs folder deleted does remove [item["/docs"]], but it then
    raises and leaves ["docs"] among the children of the root: with the
    folder facet on the deleted item the removal of the (never written)
    children entry of /docs raises [KeyError], without it the parent lookup
    under [''] fails the assertion.  The claim asks for ["docs"] to be gone
    from the children of the root. *)
Theorem scenario_B_keeps_child :
  (let out := poll_page (page [docs_deleted] "delta-2") after_A in
   fst out = Raise (AssertionError "Who is the parent of /docs?") /\
   cache (snd out) !! "/docs" = None /\
   cache (snd out) !! "c/" = Some (JArr [JStr "docs"])) /\
  (let out := poll_page (page [docs_folder_deleted] "delta-2") after_A in
   fst out = Raise (KeyError "c/docs") /\
   cache (snd out) !! "/docs" = None /\
   cache (snd out) !! "c/" = Some (JArr [JStr "docs"])).
Proof. vm_compute. auto 10. Qed.

(** One level down the same deletion works: the parent is found under its
    own path and the name leaves its children. *)
Example nested_delete_removes_child :
  let report := JObj [("id", JStr "3");
                      ("parentReference", JObj [("path", JStr "/drive/root:/docs")]);
                      ("name", JStr "report.txt"); ("file", JObj [])] in
  let gone := JObj [("id", JStr "3");
                    ("parentReference", JObj [("path", JStr "/drive/root:/docs")]);
                    ("name", JStr "report.txt"); ("deleted", JObj [])] in
  let d1 := snd (apply_item report after_A) in
  let out := apply_item gone d1 in
  cache d1 !! "c/docs" = Some (JArr [JStr "report.txt"]) /\
  fst out = Ok tt /\
  cache (snd out) !! "/docs/report.txt" = None /\
  cache (snd out) !! "c/docs" = Some (JArr []).
Proof. vm_compute. auto. Qed.

End ApplyItems.

(** ** Sync engine: when the cursor is persisted *)

Section CursorOrder.
Import Py FsApi Cases.

Lemma appends_ret {A} P (a : A) : appends P (ret a).
Proof. intros d. exists []. by rewrite app_nil_r. Qed.

Lemma appends_raise {A} P e : appends P (@raise A e).
Proof. intros d. exists []. by rewrite app_nil_r. Qed.

Lemma appends_lift {A} P (r : result A) : appends P (lift r).
Proof. intros d. exists []. by rewrite app_nil_r. Qed.

Lemma appends_cache_contains P k : appends P (cache_contains k).
Proof. intros d. exists []. by rewrite app_nil_r. Qed.

Lemma appends_cache_get P k v : appends P (cache_get k v).
Proof. intros d. exists []. by rewrite app_nil_r. Qed.

Lemma appends_cache_set (P : event -> Prop) k v :
  P (EvSet k v) -> appends P (cache_set k v).
Proof. intros H d. exists [EvSet k v]. split; [done|]. by constructor. Qed.

Lemma appends_cache_pop (P : event -> Prop) k :
  P (EvDel k) -> appends P (cache_pop k).
Proof.
  intros H d. unfold cache_pop. destruct (cache d !! k); simpl.
  - exists [EvDel k]. split; [done|]. by constructor.
  - exists []. by rewrite app_nil_r.
Qed.

Lemma appends_bind {A B} P (m : M A) (k : A -> M B) :
  appends P m -> (forall a, appends P (k a)) -> appends P (bind m k).
Proof.
  intros Hm Hk d. unfold bind. destruct (Hm d) as (evs & Ht & Hf).
  destruct (m d) as [[a|e] d1]; simpl in *.
  - destruct (Hk a d1) as (evs' & Ht' & Hf').
    exists (evs ++ evs')%list. rewrite Ht', Ht, app_assoc. split; [done|].
    by apply Forall_app.
  - by exists evs.
Qed.

Lemma appends_bind_lift {A B} P (r : result A) (k : A -> M B) :
  (forall a, r = Ok a -> appends P (k a)) -> appends P (bind (lift r) k).
Proof.
  intros Hk d. unfold bind, lift. destruct r as [a|e].
  - by apply Hk.
  - exists []. by rewrite app_nil_r.
Qed.

Lemma contains_char_app c (a b : string) :
  contains_char c (a ++ b) = contains_char c a || contains_char c b.
Proof. induction a as [|x a IH]; simpl; [done|]. by rewrite IH, orb_assoc. Qed.

(** Every path has a slash in it. *)
Lemma _get_path_has_slash (item : json) (path : string) :
  _get_path item = Ok path -> contains_char "/" path = true.
Proof.
  unfold _get_path, rbind.
  destruct (has_key "root" item) as [[|]|]; [by intros [= <-]| |done].
  destruct (getitem item "parentReference") as [pr|]; [|done].
  destruct (getitem pr "path") as [pp|]; [|done].
  destruct (partition_colon pp) as [tail|]; [|done].
  destruct (getitem item "name") as [[| | |name| |]|]; try done.
  simpl. intros [= <-]. rewrite !contains_char_app. simpl.
  by rewrite orb_true_r.
Qed.

Lemma path_not_cursor (path : string) :
  contains_char "/" path = true -> String.eqb path "delta" = false.
Proof.
  intros H. destruct (String.eqb_spec path "delta") as [->|]; [|done].
  discriminate H.
Qed.

Abbreviation not_cursor := (fun e : event => is_cursor_write e = false).

Lemma appends__deleted item : appends not_cursor (_deleted item).
Proof.
  unfold _deleted. apply appends_bind_lift. intros path Hp.
  apply appends_bind; [apply appends_cache_contains|]. intros present.
  destruct (negb present); [apply appends_ret|].
  apply appends_bind; [by apply appends_cache_pop|]. intros _.
  apply appends_bind_lift. intros is_folder _.
  apply appends_bind.
  { destruct is_folder; [|apply appends_ret].
    apply appends_bind; [by apply appends_cache_pop|].
    intros _. apply appends_ret. }
  intros _. apply appends_bind; [apply appends_cache_get|]. intros paritem.
  destruct (negb (truthy paritem)); [apply appends_raise|].
  apply appends_bind; [apply appends_cache_get|]. intros pc.
  apply appends_bind_lift. intros pc' _.
  by apply appends_cache_set.
Qed.

Lemma appends__added item : appends not_cursor (_added item).
Proof.
  unfold _added. apply appends_bind_lift. intros path Hp.
  apply appends_bind_lift. intros is_root _.
  destruct is_root; [apply appends_ret|].
  apply appends_bind; [apply appends_cache_get|]. intros pc.
  apply appends_bind_lift. intros pc' _.
  by apply appends_cache_set.
Qed.

Lemma appends_apply_item item : appends not_cursor (apply_item item).
Proof.
  unfold apply_item. apply appends_bind_lift. intros is_deleted _.
  destruct is_deleted; [apply appends__deleted|].
  apply appends_bind_lift. intros path Hp.
  apply appends_bind; [apply appends_cache_contains|]. intros present.
  apply appends_bind.
  { destruct (negb present); [apply appends__added|apply appends_ret]. }
  intros _. apply appends_cache_set. simpl.
  by apply path_not_cursor, _get_path_has_slash with item.
Qed.

Lemma appends_apply_items items : appends not_cursor (apply_items items).
Proof.
  induction items as [|item rest IH]; simpl; [apply appends_ret|].
  apply appends_bind; [apply appends_apply_item|]. by intros _.
Qed.

Lemma snd_bind_ret {A B} (m : M A) (b : B) (d : drive) :
  snd (bind m (fun _ => ret b) d) = snd (m d).
Proof. unfold bind, ret. by destruct (m d) as [[a|e] d']. Qed.

(** On a page that carries a delta link, [poll_page] is: persist the link,
    then apply the items to the drive that already holds it. *)
Lemma poll_page_terminal (d : drive) (r items link : json) :
  getitem r "value" = Ok items ->
  getitem r "@odata.deltaLink" = Ok link ->
  exists nextlink,
    poll_page r d =
      bind (lift (py_iter items))
           (fun its => bind (apply_items its) (fun _ => ret nextlink))
           (snd (cache_set "delta" link d)).
Proof.
  intros Hv Hl. destruct r as [| | | | |l]; try discriminate.
  exists (default JNull (assoc "@odata.nextLink" l)).
  unfold poll_page. unfold bind at 1, lift at 1. rewrite Hv.
  unfold bind at 1, lift at 1. simpl dict_get. cbv iota beta.
  unfold bind at 1, lift at 1. unfold has_key.
  unfold getitem in Hl. destruct (assoc "@odata.deltaLink" l) as [v|] eqn:Ha;
    [|discriminate]. injection Hl as ->.
  rewrite bool_decide_eq_true_2 by (by eexists).
  unfold bind at 1. unfold bind at 1, lift at 1. unfold getitem. rewrite Ha.
  reflexivity.
Qed.

(** The claim fails on the code: on the page of one root item with a delta
    link, applied to a fresh drive, the cursor write is the first event and
    the write of the item follows it. *)
Lemma cursor_not_after_items :
  ~ (forall (d : drive) (r items link : json),
       getitem r "value" = Ok items ->
       getitem r "@odata.deltaLink" = Ok link ->
       cursor_after_items (page_events d r)).
Proof.
  intros H.
  specialize (H fresh (page [root_item] "delta-1") (JArr [root_item])
                (JStr "delta-1") eq_refl eq_refl).
  specialize (H 0%nat 1%nat (EvSet "delta" (JStr "delta-1"))
                (EvSet "/" root_item) eq_refl eq_refl eq_refl eq_refl).
  lia.
Qed.

(** C2, as the code has it: in a pass of the loop that receives a page with
    a delta link, the cursor is written first, before any item of the page
    is applied: the first event of the page is the cursor write, every
    later event of the page is a write or a removal for its items, and those
    are the events of applying the items to the drive that already holds
    the new cursor. *)
Theorem cursor_persisted_before_items (d : drive) (r items link : json) :
  getitem r "value" = Ok items ->
  getitem r "@odata.deltaLink" = Ok link ->
  exists rest,
    page_events d r = EvSet "delta" link :: rest /\
    Forall (fun e => is_cursor_write e = false) rest /\
    forall its, py_iter items = Ok its ->
      rest = drop (S (length (trace d)))
               (trace (snd (apply_items its (snd (cache_set "delta" link d))))).
Proof.
  intros Hv Hl. destruct (poll_page_terminal d r items link Hv Hl) as (nl & Hpp).
  unfold page_events. rewrite Hpp. clear Hpp.
  set (d1 := snd (cache_set "delta" link d)).
  assert (Hd1 : trace d1 = (trace d ++ [EvSet "delta" link])%list) by done.
  assert (Hlen : S (length (trace d)) = length (trace d1)).
  { rewrite Hd1, length_app. simpl. lia. }
  unfold bind at 1, lift. destruct (py_iter items) as [its|e].
  - rewrite snd_bind_ret.
    destruct (appends_apply_items its d1) as (evs & Ht & Hf).
    exists evs. split; [|split; [done|]].
    + by rewrite Ht, Hd1, <- app_assoc, drop_app_length.
    + intros its' [= <-]. by rewrite Hlen, Ht, drop_app_length.
  - exists []. subst d1. simpl. rewrite drop_app_length.
    split; [done|]. split; [done|]. intros its [=].
Qed.

Lemma cursor_persisted_before_items_witness :
  exists rest,
    page_events fresh (page [root_item; docs_item] "delta-1")
      = EvSet "delta" (JStr "delta-1") :: rest /\
    Forall (fun e => is_cursor_write e = false) rest /\
    forall its, py_iter (JArr [root_item; docs_item]) = Ok its ->
      rest = drop (S (length (trace fresh)))
               (trace (snd (apply_items its
                  (snd (cache_set "delta" (JStr "delta-1") fresh))))).
Proof.
  apply (cursor_persisted_before_items fresh
           (page [root_item; docs_item] "delta-1")
           (JArr [root_item; docs_item]) (JStr "delta-1"));
    reflexivity.
Defined.

End CursorOrder.

(** ** Sync engine: reading content *)

Section ReadContent.
Import Py FsApi Cases.

Lemma next_none_unless_redirect (req : request) (r : response) :
  status_code r ∉ [301; 302; 303; 307; 308] -> next req r = None.
Proof.
  intros H. unfold next. destruct (location r); [|done].
  by rewrite bool_decide_eq_false_2.
Qed.

Lemma not_redirect_200_206 (n : Z) :
  n = 200 \/ n = 206 -> n ∉ [301; 302; 303; 307; 308].
Proof.
  intros Hn Hin. repeat (apply elem_of_cons in Hin as [?|Hin]; [lia|]).
  by apply elem_of_nil in Hin.
Qed.

Lemma window_request_range id c path offset size :
  assoc "range" (headers (window_request id c path offset size))
    = Some (JStr (range_header offset size)).
Proof.
  unfold window_request. simpl.
  by destruct (c !! ("t" ++ path)) as [[]|].
Qed.

(** C8: for a path that the cache holds as a file, [get_contents] returns
    empty bytes and sends nothing when the size is zero or negative; with
    offset 10 and size 5 it sends one request to the content address with
    the header [range: bytes=10-14]; it returns the body of the answer when
    the status is 200 or 206, and empty bytes when it is 304. *)
Theorem get_contents_window (http : request -> response) (id : string)
    (c : gmap string json) (path : string) (item : json) :
  c !! path = Some item ->
  has_key "folder" item = Ok false ->
  (forall (offset : option Z) (n : Z), n <= 0 ->
     get_contents http id c path offset (Some n) = (Ok (Some ""), [])) /\
  (let req := window_request id c path 10 (Some 5) in
   let r := http req in
   url req = _propurl id path ++ "/content" /\
   assoc "range" (headers req) = Some (JStr "bytes=10-14") /\
   head (snd (get_contents http id c path (Some 10) (Some 5))) = Some req /\
   (status_code r = 200 \/ status_code r = 206 ->
      get_contents http id c path (Some 10) (Some 5)
        = (Ok (Some (content r)), [req])) /\
   (status_code r = 304 ->
      get_contents http id c path (Some 10) (Some 5) = (Ok (Some ""), [req]))).
Proof.
  intros Hc Hf.
  assert (Hfile : is_folder c path = Ok false).
  { unfold is_folder, data. by rewrite Hc. }
  split.
  - intros offset n Hn. unfold get_contents. rewrite Hfile.
    by rewrite (proj2 (Z.leb_le n 0) Hn).
  - cbv zeta. split; [done|]. split; [apply window_request_range|].
    assert (Hrun : get_contents http id c path (Some 10) (Some 5) =
      let req := window_request id c path 10 (Some 5) in
      let r := http req in
      if Z.eqb (status_code r) 304 then (Ok (Some ""), [req])
      else if Z.leb 400 (status_code r) then (Ok None, [req])
      else match next req r with
           | Some req' => (Ok (Some (content (http req'))), [req; req'])
           | None => (Ok (Some (content r)), [req])
           end).
    { unfold get_contents. by rewrite Hfile. }
    rewrite Hrun. cbv zeta.
    set (req := window_request id c path 10 (Some 5)).
    split; [|split].
    + destruct (Z.eqb _ 304); [done|]. destruct (Z.leb 400 _); [done|].
      by destruct (next req (http req)).
    + intros Hs.
      rewrite (next_none_unless_redirect req (http req))
        by (by apply not_redirect_200_206).
      by destruct Hs as [-> | ->].
    + by intros ->.
Qed.

Lemma get_contents_window_witness :
  get_contents five_bytes "d1" {["/docs/report.txt" := report_item]}
    "/docs/report.txt" (Some 10) (Some 5)
  = (Ok (Some "klmno"),
     [mkRequest
        "https://graph.microsoft.com/v1.0/drives/d1/root:/docs/report.txt:/content"
        [("range", JStr "bytes=10-14")]]).
Proof.
  pose proof (get_contents_window five_bytes "d1"
                {["/docs/report.txt" := report_item]} "/docs/report.txt"
                report_item (lookup_singleton_eq _ _) eq_refl) as [_ H].
  cbv zeta in H. destruct H as (_ & _ & _ & H200 & _).
  rewrite H200; [reflexivity | right; reflexivity].
Defined.

End ReadContent.

(** ** Authenticator *)

Section Tokens.
Import Py Auth Cases.

(** C9: with a refresh token held, an answer of the token endpoint that
    carries an error makes [refresh] raise [APIError] with that answer, and
    the credential (access token, expiry, refresh token) is the one before
    the call. *)
Theorem refresh_error_keeps_credential (a : auth) (r : json) (now : Z) :
  is_none (refresh_token a) = false ->
  has_key "error" r = Ok true ->
  refresh a r now = (Raise (APIError r), a, 1%nat).
Proof. intros Hrt Herr. unfold refresh. by rewrite Hrt, Herr. Qed.

Lemma refresh_error_keeps_credential_witness :
  refresh signed_in invalid_grant 2000000
    = (Raise (APIError invalid_grant), signed_in, 1%nat).
Proof.
  apply (refresh_error_keeps_credential signed_in invalid_grant 2000000);
    reflexivity.
Defined.

(** [refresh] raises [NoTokenError] only for want of a refresh token. *)
Lemma refresh_no_token (a : auth) (r : json) (now : Z) (msg : string) :
  fst (fst (refresh a r now)) = Raise (NoTokenError msg) ->
  is_none (refresh_token a) = true.
Proof.
  unfold refresh, rbind. destruct (is_none (refresh_token a)); [done|].
  intros H. exfalso. revert H.
  destruct (has_key "error" r) as [[|]|e] eqn:He; simpl; try done.
  - destruct (getitem r "expires_in") as [x|e] eqn:Hx; simpl.
    + destruct (timedelta_seconds x) as [delta|e] eqn:Hd; simpl.
      * destruct (getitem r "refresh_token") as [rt|e] eqn:Hr; simpl.
        -- destruct (getitem r "access_token") as [tok|e] eqn:Ht; simpl;
             [done|]. intros [= ->]. destruct r; simpl in Ht; try done.
           by destruct (assoc _ _).
        -- intros [= ->]. destruct r; simpl in Hr; try done.
           by destruct (assoc _ _).
      * intros [= ->]. by destruct x.
    + intros [= ->]. destruct r; simpl in Hx; try done.
      by destruct (assoc _ _).
  - intros [= ->]. by destruct r.
Qed.

(** [refresh] sends its request exactly when a refresh token is held. *)
Lemma refresh_sent (a : auth) (r : json) (now : Z) :
  snd (refresh a r now) = if is_none (refresh_token a) then 0%nat else 1%nat.
Proof.
  unfold refresh. destruct (is_none (refresh_token a)); [done|].
  destruct (has_key "error" r) as [[|]|]; try done.
  destruct (rbind _ _); [|done].
  destruct (getitem r "refresh_token"); [|done].
  by destruct (getitem r "access_token").
Qed.

(** What [access_token] returns after [refresh] is what [refresh] returned. *)
Lemma access_token_after_refresh (a : auth) (r : json) (now' : Z) :
  (let '(x, a', sent) := refresh a r now' in
   match x with
   | Ok _ => (Ok (_access_token a'), a', sent)
   | Raise e => (Raise e, a', sent)
   end) = refresh a r now'.
Proof.
  unfold refresh. destruct (is_none (refresh_token a)); [done|].
  destruct (has_key "error" r) as [[|]|]; try done.
  destruct (rbind _ _); [|done].
  destruct (getitem r "refresh_token"); [|done].
  by destruct (getitem r "access_token").
Qed.

(** The claim fails on the code in two places.  An access token that has
    expired, with no refresh token behind it, makes the read fail with
    [NoTokenError] although an access token is held; and a read at the very
    instant of the expiry sends no renewal although the expiry is no longer
    strictly in the future. *)
Lemma access_token_claim_fails :
  ~ (forall (a : auth) (now : Z) (r : json) (now' : Z),
       is_no_token_error (fst (fst (access_token a now r now'))) = true <->
       is_none (_access_token a) && is_none (refresh_token a) = true) /\
  ~ (forall (a : auth) (now : Z) (r : json) (now' : Z),
       is_none (refresh_token a) = false ->
       expires a <= now ->
       snd (access_token a now r now') = 1%nat).
Proof.
  split.
  - intros H.
    destruct (H (mkAuth (JStr "at-1") 1000000 JNull) 1000001 JNull 1000001)
      as [H1 _].
    specialize (H1 eq_refl). discriminate H1.
  - intros H.
    specialize (H signed_in 1000000 JNull 1000000 eq_refl (Z.le_refl _)).
    discriminate H.
Qed.

(** C3, as the code has it: a read of the token fails with [NoTokenError]
    exactly when neither token is held, or when a renewal is due and no
    refresh token is held.  A renewal is due when the access token is absent
    or the clock is strictly past the expiry; the read then is the renewal,
    with its result and its errors, and one request goes to the token
    endpoint when a refresh token is held.  Otherwise, up to and including
    the instant of the expiry, the cached token is returned, the credential
    is left alone and no request is sent. *)
Theorem access_token_cases (a : auth) (now : Z) (r : json) (now' : Z) :
  let neither := is_none (_access_token a) && is_none (refresh_token a) in
  let due := Z.ltb (expires a) now || is_none (_access_token a) in
  access_token a now r now' =
    (if neither
     then (Raise (NoTokenError "No refresh token or access token"), a, 0%nat)
     else if due then refresh a r now'
          else (Ok (_access_token a), a, 0%nat)) /\
  is_no_token_error (fst (fst (access_token a now r now'))) =
    neither || (due && is_none (refresh_token a)) /\
  snd (access_token a now r now') =
    (if negb neither && due && negb (is_none (refresh_token a))
     then 1%nat else 0%nat).
Proof.
  cbv zeta.
  assert (Heq : access_token a now r now' =
    (if is_none (_access_token a) && is_none (refresh_token a)
     then (Raise (NoTokenError "No refresh token or access token"), a, 0%nat)
     else if Z.ltb (expires a) now || is_none (_access_token a)
          then refresh a r now'
          else (Ok (_access_token a), a, 0%nat))).
  { unfold access_token. destruct (_ && _); [done|].
    destruct (_ || _); [|done]. apply access_token_after_refresh. }
  split; [done|]. rewrite Heq.
  destruct (is_none (_access_token a) && is_none (refresh_token a)) eqn:Hnone;
    [done|]. simpl.
  destruct (Z.ltb (expires a) now || is_none (_access_token a)) eqn:Hdue;
    simpl; [|done].
  rewrite refresh_sent.
  destruct (is_none (refresh_token a)) eqn:Hrt; simpl.
  - unfold refresh. by rewrite Hrt.
  - split; [|done].
    destruct (fst (fst (refresh a r now'))) as [v|[]] eqn:Hres; try done.
    apply refresh_no_token in Hres. congruence.
Qed.

End Tokens.

Section DeviceCode.
Import Py Auth Cases.

(** The polling loop never ends on [AuthorizationCanceledError]: the test
    that guards it repeats the test for a pending grant, which has already
    sent the loop back to its head. *)
Lemma poll_token_never_canceled deadline interval polls msg :
  fst (poll_token deadline interval polls)
    <> Raised (AuthorizationCanceledError msg).
Proof.
  induction polls as [|[now r] rest IH]; simpl; [done|].
  destruct (negb (Z.ltb now deadline)); [done|].
  destruct (has_key "error" r) as [[|]|e] eqn:He; simpl; try done.
  - destruct (getitem r "error") as [err|e] eqn:Hg; simpl.
    + destruct (py_eq err (JStr "authorization_pending")); [|done].
      destruct (sleep_arg interval) as [secs|e] eqn:Hs; simpl.
      * by destruct (poll_token deadline interval rest).
      * intros [= ->]. by destruct interval as [| |n| | |]; simpl in Hs;
          [| |destruct (Z.ltb n 0)| | |].
    + intros [= ->]. destruct r; simpl in Hg; try done.
      by destruct (assoc _ _).
  - intros [= ->]. by destruct r.
Qed.

(** A live poll that is answered with an error other than a pending grant
    ends the loop on [APIError]. *)
Lemma poll_token_error deadline interval now r err rest :
  now < deadline ->
  has_key "error" r = Ok true ->
  getitem r "error" = Ok err ->
  py_eq err (JStr "authorization_pending") = false ->
  poll_token deadline interval ((now, r) :: rest) = (Raised (APIError r), []).
Proof.
  intros Hnow He Hg Hp. simpl.
  rewrite (proj2 (Z.ltb_lt now deadline) Hnow). simpl.
  by rewrite He, Hg, Hp.
Qed.

(** Polls that find the grant pending, all before the deadline, followed by
    a poll, still before the deadline, that is answered with a refusal. *)
Lemma poll_token_declined deadline (secs : Z) (waits : list Z) t rest :
  0 <= secs ->
  Forall (fun w => w < deadline) waits ->
  t < deadline ->
  poll_token deadline (JNum secs)
    (map (fun w => (w, pending)) waits ++ (t, declined) :: rest)
  = (Raised (APIError declined), map (fun _ => secs) waits).
Proof.
  intros Hsecs Hwaits Ht. induction Hwaits as [|w waits Hw _ IH]; simpl.
  - by rewrite (proj2 (Z.ltb_lt t deadline) Ht).
  - rewrite (proj2 (Z.ltb_lt w deadline) Hw). simpl.
    rewrite (proj2 (Z.ltb_ge secs 0) Hsecs). by rewrite IH.
Qed.

(** C4: the interactive flow on a refusal.  The device code is granted for
    900 seconds; the polls find the grant pending any number of times and
    then, still inside the lifetime of the code, one poll is answered with
    [authorization_declined]: [authenticate] raises [APIError] with that
    answer, where the claim asks for [AuthorizationCanceledError]; the
    credential is untouched and the loop has slept 5 seconds per pending
    poll. *)
Theorem authenticate_declined_raises_APIError (a : auth) (with_callback : bool)
    (now0 now1 : Z) (waits : list Z) (t : Z) (rest : list (Z * json)) :
  Forall (fun w => w < now0 + 900000000) waits ->
  t < now0 + 900000000 ->
  authenticate a with_callback device_code_answer now0
    (map (fun w => (w, pending)) waits ++ (t, declined) :: rest) now1
  = Some (Raise (APIError declined), a, map (fun _ => 5) waits).
Proof.
  intros Hwaits Ht. unfold authenticate.
  change (has_key "error" device_code_answer) with (Ok false (A:=bool)).
  change (rbind (getitem device_code_answer "expires_in") timedelta_seconds)
    with (Ok 900000000 (A:=Z)).
  change (getitem device_code_answer "interval") with (Ok (JNum 5)).
  cbv iota beta.
  rewrite (poll_token_declined (now0 + 900000000) 5 waits t rest) by (done || lia).
  by destruct with_callback.
Qed.

Lemma authenticate_declined_raises_APIError_witness :
  authenticate signed_out false device_code_answer 0
    [(1000000, pending); (7000000, declined)] 8000000
  = Some (Raise (APIError declined), signed_out, [5]).
Proof.
  apply (authenticate_declined_raises_APIError signed_out false 0 8000000
           [1000000] 7000000 []).
  - constructor; [reflexivity | constructor].
  - reflexivity.
Defined.

Lemma getitem_not_canceled x k e msg :
  getitem x k = Raise e -> e <> AuthorizationCanceledError msg.
Proof.
  intros Hx ->. destruct x; simpl in Hx; try done. by destruct (assoc _ _).
Qed.

Lemma has_key_not_canceled x k e msg :
  has_key k x = Raise e -> e <> AuthorizationCanceledError msg.
Proof. intros Hx ->. by destruct x. Qed.

Lemma lifetime_not_canceled x k e msg :
  rbind (getitem x k) timedelta_seconds = Raise e ->
  e <> AuthorizationCanceledError msg.
Proof.
  unfold rbind. destruct (getitem x k) as [v|e'] eqn:Hx.
  - intros Hv ->. by destruct v.
  - intros [= <-]. by eapply getitem_not_canceled.
Qed.

(** X19: no run of the flow ends on [AuthorizationCanceledError], whatever
    the authority answers. *)
Lemma authenticate_never_canceled a cb r0 now0 polls now1 out msg :
  authenticate a cb r0 now0 polls now1 = Some out ->
  fst (fst out) <> Raise (AuthorizationCanceledError msg).
Proof.
  unfold authenticate.
  destruct (has_key "error" r0) as [[|]|e0] eqn:H0;
    [by intros [= <-] | |
     intros [= <-]; simpl; intros [= ->]; by eapply has_key_not_canceled].
  destruct (rbind (getitem r0 "expires_in") timedelta_seconds)
    as [delta|e1] eqn:H1;
    [|intros [= <-]; simpl; intros [= ->]; by eapply lifetime_not_canceled].
  destruct (if cb then _ else _) as [m|e2] eqn:H2.
  2:{ intros [= <-]. simpl. intros [= ->]. destruct cb.
      - unfold rbind in H2. destruct (getitem r0 "user_code") eqn:Hu.
        + by eapply getitem_not_canceled.
        + injection H2 as ->. by eapply getitem_not_canceled.
      - by eapply getitem_not_canceled. }
  destruct (getitem r0 "device_code") as [dc|e3] eqn:H3;
    [|intros [= <-]; simpl; intros [= ->]; by eapply getitem_not_canceled].
  destruct (getitem r0 "interval") as [interval|e4] eqn:H4;
    [|intros [= <-]; simpl; intros [= ->]; by eapply getitem_not_canceled].
  pose proof (poll_token_never_canceled (now0 + delta) interval polls msg) as Hp.
  destruct (poll_token (now0 + delta) interval polls) as [[data| |e|] sleeps];
    simpl in Hp; [| by intros [= <-] | | done].
  - destruct (rbind (getitem data "expires_in") timedelta_seconds)
      as [delta'|e5] eqn:H5;
      [|intros [= <-]; simpl; intros [= ->]; by eapply lifetime_not_canceled].
    destruct (getitem data "access_token") as [tok|e6] eqn:H6.
    + destruct data; by intros [= <-].
    + intros [= <-]. simpl. intros [= ->]. by eapply getitem_not_canceled.
  - intros [= <-]. simpl. congruence.
Qed.

End DeviceCode.

(** ** Persistent cache *)

Section CacheLaws.
Import Py DBDict.

Context {KT VT : Type}.
Variable api : dbapi.
Variable dumps : KT + VT -> blob.
Variable value_loads : blob -> VT.
Variable show : KT -> string.

Abbreviation get := (__getitem__ api dumps value_loads show).
Abbreviation set := (__setitem__ api dumps value_loads show).
Abbreviation del := (__delitem__ api dumps value_loads show).

(** The operations in terms of the table. *)
Lemma __getitem___table (t : table) (k : KT) :
  get t k = match t !! dumps (inl k) with
            | Some b => Ok (value_loads b)
            | None => key_error show k
            end.
Proof.
  unfold __getitem__, fetchone. simpl. by destruct (t !! dumps (inl k)).
Qed.

Lemma __contains___table (t : table) (k : KT) :
  __contains__ api dumps value_loads show t k
    = Ok (bool_decide (is_Some (t !! dumps (inl k)))).
Proof.
  unfold __contains__. rewrite __getitem___table.
  by destruct (t !! dumps (inl k)) as [b|].
Qed.

Lemma __setitem___table (t : table) (k : KT) (v : VT) :
  set t k v = (Ok tt, <[dumps (inl k) := dumps (inr v)]> t).
Proof.
  unfold __setitem__. rewrite __contains___table.
  destruct (t !! dumps (inl k)) as [b|] eqn:Hb; simpl; by rewrite Hb.
Qed.

Lemma __delitem___table (t : table) (k : KT) :
  del t k = match t !! dumps (inl k) with
            | Some _ => (Ok tt, delete (dumps (inl k)) t)
            | None => (key_error show k, t)
            end.
Proof.
  unfold __delitem__. rewrite __contains___table.
  destruct (t !! dumps (inl k)) as [b|] eqn:Hb; simpl; [by rewrite Hb|done].
Qed.

(** C6: with a value codec that reads back what it wrote, in every state of
    the table a [set] succeeds and a [get] of the same key then returns the
    value, so a second [set] of the key replaces the first; after a [delete]
    of a key, whether it found the key or raised, a [get] of it raises
    [KeyError]; and a [get] of a key that has no row raises [KeyError]. *)
Theorem cache_set_get_delete (t : table) (k : KT) (v v' : VT) :
  (forall x : VT, value_loads (dumps (inr x)) = x) ->
  (exists t1,
     __setitem__ api dumps value_loads show t k v = (Ok tt, t1) /\
     __getitem__ api dumps value_loads show t1 k = Ok v /\
     exists t2,
       __setitem__ api dumps value_loads show t1 k v' = (Ok tt, t2) /\
       __getitem__ api dumps value_loads show t2 k = Ok v') /\
  __getitem__ api dumps value_loads show
    (snd (__delitem__ api dumps value_loads show t k)) k
    = Raise (KeyError (show k)) /\
  (t !! dumps (inl k) = None ->
   __getitem__ api dumps value_loads show t k = Raise (KeyError (show k))).
Proof.
  intros Hcodec. split; [|split].
  - eexists. split; [apply __setitem___table|]. split.
    + by rewrite __getitem___table, lookup_insert_eq, Hcodec.
    + eexists. split; [apply __setitem___table|].
      by rewrite __getitem___table, lookup_insert_eq, Hcodec.
  - rewrite __delitem___table, __getitem___table.
    destruct (t !! dumps (inl k)) as [b|] eqn:Hb; simpl.
    + by rewrite lookup_delete_eq.
    + by rewrite Hb.
  - intros Hb. by rewrite __getitem___table, Hb.
Qed.

End CacheLaws.

Section CacheSize.
Import Py DBDict.

Lemma cache_set_get_delete_witness :
  (exists t1, __setitem__ sqlite3 plain_dumps plain_loads id ∅ "k" "v"
              = (Ok tt, t1) /\
     __getitem__ sqlite3 plain_dumps plain_loads id t1 "k" = Ok "v" /\
     exists t2, __setitem__ sqlite3 plain_dumps plain_loads id t1 "k" "w"
                = (Ok tt, t2) /\
       __getitem__ sqlite3 plain_dumps plain_loads id t2 "k" = Ok "w") /\
  __getitem__ sqlite3 plain_dumps plain_loads id
    (snd (__delitem__ sqlite3 plain_dumps plain_loads id ∅ "k")) "k"
    = Raise (KeyError "k") /\
  ((∅ : table) !! plain_dumps (inl "k") = None ->
   __getitem__ sqlite3 plain_dumps plain_loads id ∅ "k" = Raise (KeyError "k")).
Proof.
  apply (cache_set_get_delete sqlite3 plain_dumps plain_loads id ∅ "k" "v" "w").
  intros x. reflexivity.
Defined.

(** With [sqlite3], [rowcount] is -1 after the SELECT of [__len__], whatever
    the table holds, and [max(-1, 0)] is 0. *)
Lemma __len___sqlite3 (t : table) : __len__ sqlite3 t = Ok 0.
Proof. reflexivity. Qed.

(** With such a driver [__len__] is the number of keys of the table. *)
Lemma __len___counting (t : table) :
  __len__ counting t = Ok (Z.of_nat (size t)).
Proof.
  unfold __len__. simpl. rewrite length_fmap, length_map_to_list.
  f_equal. lia.
Qed.

(** [n] sets of pairwise distinct keys on an empty table leave [n] rows. *)
Lemma set_all_size {KT VT} api (dumps : KT + VT -> blob) value_loads show
    (kvs : list (KT * VT)) (t : table) :
  NoDup (map (fun kv => dumps (inl (fst kv))) kvs) ->
  (forall kv, kv ∈ kvs -> t !! dumps (inl (fst kv)) = None) ->
  exists t', set_all api dumps value_loads show t kvs = (Ok tt, t') /\
             size t' = (size t + length kvs)%nat.
Proof.
  revert t. induction kvs as [|[k v] rest IH]; intros t Hnd Hfresh; simpl.
  - exists t. split; [done|]. lia.
  - rewrite __setitem___table. simpl in Hnd. apply NoDup_cons in Hnd as [Hk Hnd].
    destruct (IH (<[dumps (inl k) := dumps (inr v)]> t) Hnd) as (t' & Hrun & Hsz).
    { intros kv Hin. rewrite lookup_insert_ne.
      - apply Hfresh. by right.
      - intros Heq. apply Hk. rewrite Heq.
        apply (list_elem_of_fmap_2 (fun kv => dumps (inl kv.1))). done. }
    exists t'. split; [done|]. rewrite Hsz, map_size_insert_None.
    + lia.
    + apply (Hfresh (k, v)). by left.
Qed.

(** C5: on the default driver the size of the cache is 0 whatever was set.
    After one [set] on an empty table the table has one row and [len]
    returns 0, where the claim asks for 1; and so after any run of sets,
    for every codec. *)
Theorem len_sqlite3_after_sets :
  (let t := snd (__setitem__ sqlite3 plain_dumps plain_loads id ∅ "k" "v") in
   size t = 1%nat /\ __len__ sqlite3 t = Ok 0) /\
  (forall (KT VT : Type) (dumps : KT + VT -> blob) (value_loads : blob -> VT)
          (show : KT -> string) (kvs : list (KT * VT)) (t : table),
     __len__ sqlite3 (snd (set_all sqlite3 dumps value_loads show t kvs))
       = Ok 0).
Proof.
  split; [|intros; apply __len___sqlite3].
  cbv zeta. rewrite __setitem___table. simpl.
  split; [|reflexivity]. rewrite map_size_insert_None by apply lookup_empty.
  by rewrite map_size_empty.
Qed.

End CacheSize.

(** ** Sync engine: how the index is updated *)

Section IndexUpdates.
Import Py FsApi Cases MoreCases.

(** A string with a [c] in it is its [rpartition] head, the [c] and a rest
    without [c]. *)
Lemma rpartition_head_split (c : ascii) (s : string) :
  contains_char c s = true ->
  exists last,
    s = rpartition_head c s ++ String c last /\ contains_char c last = false.
Proof.
  induction s as [|a t IH]; simpl; [done|].
  destruct (contains_char c t) eqn:Ht.
  - intros _. destruct (IH eq_refl) as (last & Heq & Hl).
    exists last. split; [|done].
    change (String a t = String a (rpartition_head c t ++ String c last)).
    by f_equal.
  - rewrite orb_false_r. intros Ha. apply Ascii.eqb_eq in Ha as ->.
    exists t. by split.
Qed.

Lemma shifted_not_equal (a b : ascii) (p q : string) :
  String a p = p ++ String b q -> a = b.
Proof.
  revert a. induction p as [|x p IH]; intros a; simpl.
  - by intros [= -> _].
  - intros [= -> H]. by apply IH in H.
Qed.

Lemma cons_not_self (a : ascii) (p : string) : String a p <> p.
Proof.
  revert a. induction p as [|x p IH]; intros a; [done|].
  intros [= -> H]. by apply IH in H.
Qed.

Lemma rpartition_head_shorter (c : ascii) (s : string) :
  contains_char c s = true ->
  (String.length (rpartition_head c s) < String.length s)%nat.
Proof.
  induction s as [|a t IH]; simpl; [done|].
  destruct (contains_char c t); simpl; intros _.
  - specialize (IH eq_refl). lia.
  - lia.
Qed.

(** The key of the children of the parent is never the path itself. *)
Lemma children_key_not_path (path : string) :
  contains_char "/" path = true ->
  ("c" ++ rpartition_head "/" path) <> path.
Proof.
  intros H Heq. destruct (rpartition_head_split "/" path H) as (last & Hs & _).
  remember (rpartition_head "/" path) as p eqn:Hp. clear Hp.
  rewrite Hs in Heq. by apply shifted_not_equal in Heq.
Qed.

Lemma added_children_key_not_path (path : string) :
  contains_char "/" path = true ->
  ("c" ++ added_parent path) <> path.
Proof.
  intros H. unfold added_parent.
  destruct (String.eqb_spec (rpartition_head "/" path) "") as [He|He].
  - destruct (rpartition_head_split "/" path H) as (last & Hs & _).
    rewrite He in Hs. rewrite Hs. discriminate.
  - by apply children_key_not_path.
Qed.

Lemma apply_item_appends_name (d : drive) (item : json) (path nm : string)
    (l : list json) :
  has_key "deleted" item = Ok false ->
  has_key "root" item = Ok false ->
  _get_path item = Ok path ->
  getitem item "name" = Ok (JStr nm) ->
  cache d !! path = None ->
  default (JArr []) (cache d !! ("c" ++ added_parent path)) = JArr l ->
  apply_item item d =
    (Ok tt, mkDrive (<[path := item]>
                       (<["c" ++ added_parent path
                          := JArr (l ++ [JStr nm])]> (cache d)))
              (trace d ++ [EvSet ("c" ++ added_parent path)
                             (JArr (l ++ [JStr nm])); EvSet path item])).
Proof.
  intros Hd Hroot Hp Hname Hc Hl.
  unfold apply_item, bind, lift, ret, cache_contains. rewrite Hd. simpl.
  rewrite Hp. simpl. rewrite Hc.
  rewrite bool_decide_eq_false_2 by (intros [? ?]; discriminate). simpl.
  unfold _added, bind, lift, ret, cache_get. rewrite Hp. simpl.
  rewrite Hroot. simpl. fold (added_parent path). rewrite Hl.
  unfold children_append, rbind. rewrite Hname. simpl.
  unfold cache_set. simpl. by rewrite <- app_assoc.
Qed.

(** X1: a new item that is not the root, applied to a cache that does not
    hold its path, is stored under its path and its name is appended to the
    children of its parent, the root's children for an item under the root;
    the two writes are the only events. *)
Theorem apply_item_new (d : drive) (item : json) (path nm : string)
    (l : list json) :
  has_key "deleted" item = Ok false ->
  has_key "root" item = Ok false ->
  _get_path item = Ok path ->
  getitem item "name" = Ok (JStr nm) ->
  cache d !! path = None ->
  default (JArr []) (cache d !! ("c" ++ added_parent path)) = JArr l ->
  let ckey := ("c" ++ added_parent path) in
  let names := JArr (l ++ [JStr nm]) in
  let d' := snd (apply_item item d) in
  apply_item item d =
    (Ok tt, mkDrive (<[path := item]> (<[ckey := names]> (cache d)))
                    (trace d ++ [EvSet ckey names; EvSet path item])) /\
  cache d' !! path = Some item /\
  cache d' !! ckey = Some names.
Proof.
  intros Hd Hroot Hp Hname Hc Hl. cbv zeta.
  rewrite (apply_item_appends_name d item path nm l Hd Hroot Hp Hname Hc Hl).
  split; [done|]. simpl. split; [apply lookup_insert_eq|].
  rewrite lookup_insert_ne; [apply lookup_insert_eq|].
  intros Heq. symmetry in Heq. revert Heq.
  by apply added_children_key_not_path, _get_path_has_slash with item.
Qed.

Lemma apply_item_new_witness :
  let ckey := ("c" ++ added_parent "/docs") in
  let names := JArr ([] ++ [JStr "docs"]) in
  let d0 := snd (apply_item root_item fresh) in
  let d' := snd (apply_item docs_item d0) in
  apply_item docs_item d0 =
    (Ok tt, mkDrive (<["/docs" := docs_item]> (<[ckey := names]> (cache d0)))
                    (trace d0 ++ [EvSet ckey names; EvSet "/docs" docs_item])) /\
  cache d' !! "/docs" = Some docs_item /\
  cache d' !! ckey = Some names.
Proof.
  apply (apply_item_new (snd (apply_item root_item fresh)) docs_item
           "/docs" "docs" []); reflexivity.
Defined.

(** X2: the deletion of an item below a folder that the cache holds, with
    the item's name among the folder's children and, for a folder, its own
    children entry present: the item entry is removed, the children entry
    of a deleted folder is removed, and the first occurrence of the name
    leaves the children of the parent. *)
Theorem _deleted_nested (d : drive) (item name v pitem : json)
    (path : string) (folder : bool) (l l' : list json) :
  _get_path item = Ok path ->
  has_key "folder" item = Ok folder ->
  getitem item "name" = Ok name ->
  cache d !! path = Some v ->
  (folder = true -> is_Some (cache d !! ("c" ++ path))) ->
  cache d !! rpartition_head "/" path = Some pitem ->
  truthy pitem = true ->
  cache d !! ("c" ++ rpartition_head "/" path) = Some (JArr l) ->
  list_remove name l = Some l' ->
  let parent := rpartition_head "/" path in
  let c1 := delete path (cache d) in
  let c2 := if folder then delete (("c" ++ path)) c1 else c1 in
  _deleted item d =
    (Ok tt,
     mkDrive (<[("c" ++ parent) := JArr l']> c2)
       (trace d ++ [EvDel path] ++
        (if folder then [EvDel (("c" ++ path))] else []) ++
        [EvSet (("c" ++ parent)) (JArr l')])).
Proof.
  intros Hp Hf Hname Hv Hcp Hpar Htruthy Hch Hrem. cbv zeta.
  pose proof (_get_path_has_slash item path Hp) as Hslash.
  pose proof (rpartition_head_shorter "/" path Hslash) as Hlen.
  assert (Hn1 : path <> rpartition_head "/" path).
  { intros Heq. rewrite <- Heq in Hlen. lia. }
  assert (Hn2 : path <> ("c" ++ rpartition_head "/" path)).
  { intros Heq. symmetry in Heq. by apply children_key_not_path in Heq. }
  assert (Hn3 : ("c" ++ path) <> rpartition_head "/" path).
  { intros Heq. rewrite <- Heq in Hlen.
    change ("c" ++ path) with (String "c" path) in Hlen. simpl in Hlen. lia. }
  assert (Hn4 : ("c" ++ path) <> ("c" ++ rpartition_head "/" path)).
  { change (String "c" path <> String "c" (rpartition_head "/" path)).
    intros [= Heq]. by apply Hn1. }
  assert (Hn5 : path <> ("c" ++ path)).
  { intros Heq. symmetry in Heq. by apply cons_not_self in Heq. }
  unfold _deleted, bind, lift, ret, raise, cache_contains, cache_get.
  rewrite Hp. simpl. rewrite Hv.
  rewrite bool_decide_eq_true_2 by (by eexists). simpl.
  unfold cache_pop at 1. rewrite Hv. simpl. rewrite Hf. simpl.
  destruct folder; simpl.
  - destruct (Hcp eq_refl) as [w Hw]. unfold cache_pop. simpl.
    rewrite lookup_delete_ne, Hw by done. simpl.
    rewrite !lookup_delete_ne, Hpar by done. simpl. rewrite Htruthy. simpl.
    rewrite !lookup_delete_ne, Hch by done. simpl.
    unfold children_remove, rbind. rewrite Hname, Hrem. simpl.
    unfold cache_set. simpl. by rewrite <- !app_assoc.
  - rewrite lookup_delete_ne, Hpar by done. simpl. rewrite Htruthy. simpl.
    rewrite lookup_delete_ne, Hch by done. simpl.
    unfold children_remove, rbind. rewrite Hname, Hrem. simpl.
    unfold cache_set. simpl. by rewrite <- !app_assoc.
Qed.

Lemma _deleted_nested_witness :
  let d := snd (apply_item report_item after_A) in
  _deleted report_deleted d =
    (Ok tt,
     mkDrive (<["c/docs" := JArr []]> (delete "/docs/report.txt" (cache d)))
       (trace d ++ [EvDel "/docs/report.txt"] ++ [] ++
        [EvSet "c/docs" (JArr [])])).
Proof.
  cbv zeta.
  apply (_deleted_nested (snd (apply_item report_item after_A)) report_deleted
           (JStr "report.txt") report_item docs_item "/docs/report.txt" false
           [JStr "report.txt"] []); try reflexivity.
  intros [=].
Defined.

(** X3: the retries: requests that fail leave the cache as it is; each one
    is followed by a sleep and the same link is polled again. *)
Theorem poll_from_retries (id : string) (n : nat) (rest : list (option json))
    (link : json) (d : drive) :
  poll_from id (replicate n None ++ rest) link d =
  poll_from id rest link
    (mkDrive (cache d)
       (trace d ++ concat (replicate n [EvPoll link; EvSleep]))).
Proof.
  revert d. induction n as [|n IH]; intros d; simpl.
  - rewrite app_nil_r. by destruct d.
  - unfold bind at 1, log at 1. unfold bind at 1, log at 1. simpl.
    rewrite IH. simpl. by rewrite <- !app_assoc.
Qed.

End IndexUpdates.

(** ** Sync engine: the cursor across a page *)

Section CursorKept.
Import Py FsApi Cases.

Lemma preserves_ret {A} k (a : A) : preserves k (ret a).
Proof. by intros d. Qed.

Lemma preserves_raise {A} k e : preserves k (@raise A e).
Proof. by intros d. Qed.

Lemma preserves_cache_set k k' v : k' <> k -> preserves k (cache_set k' v).
Proof. intros H d. simpl. by rewrite lookup_insert_ne. Qed.

Lemma preserves_cache_pop k k' : k' <> k -> preserves k (cache_pop k').
Proof.
  intros H d. unfold cache_pop. destruct (cache d !! k'); simpl; [|done].
  by rewrite lookup_delete_ne.
Qed.

Lemma preserves_bind {A B} k (m : M A) (f : A -> M B) :
  preserves k m -> (forall a, preserves k (f a)) -> preserves k (bind m f).
Proof.
  intros Hm Hf d. unfold bind. specialize (Hm d).
  destruct (m d) as [[a|e] d1]; simpl in *; [|done].
  by rewrite Hf.
Qed.

Lemma preserves_bind_lift {A B} k (r : result A) (f : A -> M B) :
  (forall a, r = Ok a -> preserves k (f a)) -> preserves k (bind (lift r) f).
Proof.
  intros Hf d. unfold bind, lift. destruct r as [a|e]; [|done]. by apply Hf.
Qed.

Lemma path_is_not_cursor (item : json) (path : string) :
  _get_path item = Ok path -> path <> "delta".
Proof.
  intros Hp ->. apply _get_path_has_slash in Hp. discriminate Hp.
Qed.

Lemma children_key_is_not_cursor (p : string) : "c" ++ p <> "delta".
Proof. discriminate. Qed.

Lemma preserves__deleted item : preserves "delta" (_deleted item).
Proof.
  unfold _deleted. apply preserves_bind_lift. intros path Hp.
  apply preserves_bind; [by intros d|]. intros present.
  destruct (negb present); [apply preserves_ret|].
  apply preserves_bind.
  { apply preserves_cache_pop. by apply path_is_not_cursor with item. }
  intros _. apply preserves_bind_lift. intros is_folder _.
  apply preserves_bind.
  { destruct is_folder; [|apply preserves_ret].
    apply preserves_bind;
      [apply preserves_cache_pop, children_key_is_not_cursor|].
    intros _. apply preserves_ret. }
  intros _. apply preserves_bind; [by intros d|]. intros paritem.
  destruct (negb (truthy paritem)); [apply preserves_raise|].
  apply preserves_bind; [by intros d|]. intros pc.
  apply preserves_bind_lift. intros pc' _.
  apply preserves_cache_set, children_key_is_not_cursor.
Qed.

Lemma preserves__added item : preserves "delta" (_added item).
Proof.
  unfold _added. apply preserves_bind_lift. intros path Hp.
  apply preserves_bind_lift. intros is_root _.
  destruct is_root; [apply preserves_ret|].
  apply preserves_bind; [by intros d|]. intros pc.
  apply preserves_bind_lift. intros pc' _.
  apply preserves_cache_set, children_key_is_not_cursor.
Qed.

Lemma preserves_apply_item item : preserves "delta" (apply_item item).
Proof.
  unfold apply_item. apply preserves_bind_lift. intros is_deleted _.
  destruct is_deleted; [apply preserves__deleted|].
  apply preserves_bind_lift. intros path Hp.
  apply preserves_bind; [by intros d|]. intros present.
  apply preserves_bind.
  { destruct (negb present); [apply preserves__added|apply preserves_ret]. }
  intros _. apply preserves_cache_set. by apply path_is_not_cursor with item.
Qed.

Lemma preserves_apply_items items : preserves "delta" (apply_items items).
Proof.
  induction items as [|item rest IH]; simpl; [apply preserves_ret|].
  apply preserves_bind; [apply preserves_apply_item|]. by intros _.
Qed.

(** X4: applying items, deleted or not, never touches the stored cursor,
    whether the items are applied to the end or one of them raises: the
    entry under the cursor key is the one before, and none of the events
    added is a write of the cursor. *)
Theorem apply_items_keeps_cursor (items : list json) (d : drive) :
  cache (snd (apply_items items d)) !! "delta" = cache d !! "delta" /\
  Forall (fun e => is_cursor_write e = false)
    (drop (length (trace d)) (trace (snd (apply_items items d)))).
Proof.
  split; [apply preserves_apply_items|].
  destruct (appends_apply_items items d) as (evs & Htrace & Hevs).
  by rewrite Htrace, drop_app_length.
Qed.

Lemma poll_page_stores_link (d : drive) (r items link : json) :
  getitem r "value" = Ok items ->
  getitem r "@odata.deltaLink" = Ok link ->
  cache (snd (poll_page r d)) !! "delta" = Some link.
Proof.
  intros Hv Hl.
  destruct (poll_page_terminal d r items link Hv Hl) as (nl & ->).
  assert (Hk : preserves "delta"
            (bind (lift (py_iter items))
               (fun its => bind (apply_items its) (fun _ => ret nl)))).
  { apply preserves_bind_lift. intros its _.
    apply preserves_bind; [apply preserves_apply_items|].
    intros _. apply preserves_ret. }
  rewrite Hk. simpl. apply lookup_insert_eq.
Qed.

(** X5: the cursor after a page.  A page with a delta link leaves that link
    stored, also when one of its items raises and the rest of the page is
    never applied; a page without one leaves the stored cursor as it was. *)
Theorem poll_page_cursor (d : drive) (r : json) :
  (forall items link,
     getitem r "value" = Ok items ->
     getitem r "@odata.deltaLink" = Ok link ->
     cache (snd (poll_page r d)) !! "delta" = Some link) /\
  (has_key "@odata.deltaLink" r = Ok false ->
   cache (snd (poll_page r d)) !! "delta" = cache d !! "delta").
Proof.
  split.
  - intros items link Hv Hl. by apply poll_page_stores_link with items.
  - intros Hno.
    assert (Hk : preserves "delta" (poll_page r)).
    { unfold poll_page. apply preserves_bind_lift. intros items _.
      apply preserves_bind_lift. intros nl _.
      apply preserves_bind_lift. intros has Hhas.
      rewrite Hno in Hhas. injection Hhas as <-.
      apply preserves_bind; [apply preserves_ret|]. intros _.
      apply preserves_bind_lift. intros its _.
      apply preserves_bind; [apply preserves_apply_items|].
      intros _. apply preserves_ret. }
    apply Hk.
Qed.

Lemma poll_page_cursor_witness :
  cache (snd (poll_page (page [docs_deleted] "delta-2") after_A)) !! "delta"
    = Some (JStr "delta-2") /\
  cache (snd (poll_page (JObj [("value", JArr [root_item])]) after_A)) !! "delta"
    = cache after_A !! "delta".
Proof.
  destruct (poll_page_cursor after_A (page [docs_deleted] "delta-2"))
    as [H1 _].
  destruct (poll_page_cursor after_A (JObj [("value", JArr [root_item])]))
    as [_ H2].
  split.
  - apply (H1 (JArr [docs_deleted]) (JStr "delta-2")); reflexivity.
  - apply H2. reflexivity.
Defined.



Lemma _deleted_top_level_raises_witness :
  exists e d', _deleted docs_deleted after_A = (Raise e, d') /\
               cache d' !! "/docs" = None /\
               cache d' !! "c/" = cache after_A !! "c/".
Proof.
  apply (_deleted_top_level_raises after_A docs_deleted docs_item "docs");
    try reflexivity.
  discriminate.
Defined.

End CursorKept.

(** ** Sync engine: more on reading content and on the items *)

Section ReadContentMore.
Import Py FsApi Cases MoreCases.

(** X8: what [get_contents] does not fetch.  A path the cache does not hold
    raises [KeyError] and a folder gives [None], both without a request; for
    a file, an answer with a status of 400 or more gives [None] after the
    one request. *)
Theorem get_contents_misses (http : request -> response) (id : string)
    (c : gmap string json) (path : string) (offset size : option Z) :
  (c !! path = None ->
   get_contents http id c path offset size = (Raise (KeyError path), [])) /\
  (forall item, c !! path = Some item -> has_key "folder" item = Ok true ->
   get_contents http id c path offset size = (Ok None, [])) /\
  (forall item req, c !! path = Some item ->
   has_key "folder" item = Ok false ->
   head (snd (get_contents http id c path offset size)) = Some req ->
   400 <= status_code (http req) ->
   get_contents http id c path offset size = (Ok None, [req])).
Proof.
  split; [|split].
  - intros Hc. unfold get_contents, is_folder, data. by rewrite Hc.
  - intros item Hc Hf. unfold get_contents, is_folder, data.
    rewrite Hc. simpl. by rewrite Hf.
  - intros item req Hc Hf. unfold get_contents, is_folder, data.
    rewrite Hc. simpl. rewrite Hf.
    destruct (match size with Some n => Z.leb n 0 | None => false end);
      [discriminate|].
    set (rq := mkRequest _ _).
    assert (Hhead : forall x,
      head (snd (if Z.eqb (status_code (http rq)) 304 then (Ok (Some ""), [rq])
                 else if Z.leb 400 (status_code (http rq)) then (Ok None, [rq])
                 else match next rq (http rq) with
                      | Some req' => (Ok (Some (content (http req'))), [rq; req'])
                      | None => (Ok (Some (content (http rq))), [rq])
                      end)) = Some x -> x = rq).
    { intros x. destruct (Z.eqb _ 304); [by intros [= <-]|].
      destruct (Z.leb 400 _); [by intros [= <-]|].
      destruct (next rq (http rq)); by intros [= <-]. }
    intros Hreq Hst. apply Hhead in Hreq. subst req.
    destruct (Z.eqb_spec (status_code (http rq)) 304) as [E|_]; [lia|].
    by rewrite (proj2 (Z.leb_le 400 _) Hst).
Qed.

Lemma get_contents_misses_witness :
  get_contents (fun _ => mkResponse 404 None "") "d1"
    {["/docs/report.txt" := report_item]} "/docs/report.txt" None None
  = (Ok None,
     [mkRequest
        "https://graph.microsoft.com/v1.0/drives/d1/root:/docs/report.txt:/content"
        []]).
Proof.
  destruct (get_contents_misses (fun _ => mkResponse 404 None "") "d1"
              {["/docs/report.txt" := report_item]} "/docs/report.txt"
              None None) as (_ & _ & H).
  apply (H report_item); [apply lookup_singleton_eq | reflexivity
                         | reflexivity | simpl; lia].
Defined.



(** X10: the headers of the request for a file's content.  The address is
    the property address of the item followed by [/content]; the range
    header is absent exactly when neither an offset nor a size is given and
    otherwise starts at the offset, 0 without one, and is open-ended without
    a size; the cached content tag, unless it is [None], goes out as
    [if-none-match]. *)
Theorem get_contents_request (http : request -> response) (id : string)
    (c : gmap string json) (path : string) (offset size : option Z)
    (req : request) :
  head (snd (get_contents http id c path offset size)) = Some req ->
  url req = _propurl id path ++ "/content" /\
  assoc "range" (headers req) =
    (match offset, size with
     | None, None => None
     | _, _ => Some (JStr (range_header (default 0 offset) size))
     end) /\
  assoc "if-none-match" (headers req) =
    (match c !! ("t" ++ path) with
     | None | Some JNull => None
     | Some tag => Some tag
     end).
Proof.
  unfold get_contents.
  destruct (is_folder c path) as [[|]|e]; [discriminate| |discriminate].
  destruct (match size with Some n => Z.leb n 0 | None => false end);
    [discriminate|].
  set (rq := mkRequest _ _).
  intros Hreq. assert (req = rq) as ->.
  { revert Hreq. destruct (Z.eqb _ 304); [by intros [= <-]|].
    destruct (Z.leb 400 _); [by intros [= <-]|].
    destruct (next rq (http rq)); by intros [= <-]. }
  subst rq. simpl. split; [done|].
  assert (Hoff : forall o : Z, (if Z.eqb o 0 then 0 else o) = o).
  { intros o. by destruct (Z.eqb_spec o 0). }
  destruct (c !! ("t" ++ path)) as [[| | | | |]|];
    destruct offset as [o|], size as [n|]; simpl;
    rewrite ?Hoff; done.
Qed.

Lemma get_contents_request_witness :
  let c : gmap string json :=
    {["/docs/report.txt" := report_item;
      "t/docs/report.txt" := JStr "tag-1"]} in
  let req :=
    mkRequest
      "https://graph.microsoft.com/v1.0/drives/d1/root:/docs/report.txt:/content"
      [("if-none-match", JStr "tag-1"); ("range", JStr "bytes=10-")] in
  url req = _propurl "d1" "/docs/report.txt" ++ "/content" /\
  assoc "range" (headers req) = Some (JStr (range_header 10 None)) /\
  assoc "if-none-match" (headers req) = Some (JStr "tag-1").
Proof.
  cbv zeta.
  pose proof (get_contents_request five_bytes "d1"
                {["/docs/report.txt" := report_item;
                  "t/docs/report.txt" := JStr "tag-1"]}
                "/docs/report.txt" (Some 10) None
                (mkRequest
                   "https://graph.microsoft.com/v1.0/drives/d1/root:/docs/report.txt:/content"
                   [("if-none-match", JStr "tag-1"); ("range", JStr "bytes=10-")])
                eq_refl) as H.
  exact H.
Defined.

(** X11: what a query sees after a new item.  Once a new item has been
    applied below a folder that the cache holds, [get_item_by_path] finds
    the item and the [children] of the folder end with its name. *)
Theorem children_after_new_item (d : drive) (item pitem : json)
    (path nm : string) (l : list json) :
  has_key "deleted" item = Ok false ->
  has_key "root" item = Ok false ->
  _get_path item = Ok path ->
  getitem item "name" = Ok (JStr nm) ->
  cache d !! path = None ->
  cache d !! added_parent path = Some pitem ->
  has_key "folder" pitem = Ok true ->
  default (JArr []) (cache d !! ("c" ++ added_parent path)) = JArr l ->
  let c' := cache (snd (apply_item item d)) in
  get_item_by_path c' path = Some path /\
  children c' (added_parent path) = Ok (Some (JArr (l ++ [JStr nm]))).
Proof.
  intros Hd Hroot Hp Hname Hc Hpar Hfolder Hl. cbv zeta.
  rewrite (apply_item_appends_name d item path nm l Hd Hroot Hp Hname Hc Hl).
  simpl.
  assert (Hkey : ("c" ++ added_parent path) <> path).
  { by apply added_children_key_not_path, _get_path_has_slash with item. }
  assert (Hself : ("c" ++ added_parent path) <> added_parent path).
  { change ("c" ++ added_parent path) with (String "c" (added_parent path)).
    apply cons_not_self. }
  assert (Hother : path <> added_parent path) by (intros Heq; congruence).
  split.
  - unfold get_item_by_path. rewrite lookup_insert_eq.
    by rewrite bool_decide_eq_true_2 by (by eexists).
  - unfold children, is_folder, data, rbind.
    rewrite (lookup_insert_ne _ path (added_parent path)) by done.
    rewrite (lookup_insert_ne _ ("c" ++ added_parent path) (added_parent path))
      by done.
    rewrite Hpar, Hfolder.
    rewrite (lookup_insert_ne _ path ("c" ++ added_parent path)) by done.
    by rewrite lookup_insert_eq.
Qed.

Lemma children_after_new_item_witness :
  let c' := cache (snd (apply_item report_item after_A)) in
  get_item_by_path c' "/docs/report.txt" = Some "/docs/report.txt" /\
  children c' (added_parent "/docs/report.txt")
    = Ok (Some (JArr ([] ++ [JStr "report.txt"]))).
Proof.
  apply (children_after_new_item after_A report_item docs_item
           "/docs/report.txt" "report.txt" []); reflexivity.
Defined.

(** Which cache a drive gets.  Giving both a cache and a cache
    directory is refused with [ValueError]; a non-empty cache is shared
    under the keys of the drive; with a cache directory the drive gets a
    file of its own there; and without a directory, no cache or an empty one
    fails the assertion. *)
Lemma _get_drive_cache_cases (md5hex : string -> string)
    (cache : option (gmap string json)) (cachedir : option string)
    (id : string) :
  _get_drive_cache md5hex cache cachedir id =
    match cache, cachedir with
    | Some _, Some _ => Raise ValueError
    | None, Some dir => Ok (OnDisk dir ("drv-" ++ md5hex id))
    | Some m, None =>
        if bool_decide (m = ∅) then Raise (AssertionError "") else Ok (Shared id)
    | None, None => Raise (AssertionError "")
    end.
Proof.
  unfold _get_drive_cache. destruct cache as [m|], cachedir as [dir|]; try done.
  by destruct (bool_decide (m = ∅)).
Qed.

End ReadContentMore.

(** ** The keys of one drive in a shared cache *)

Section DriveKeys.
Import Py DriveCache.

Lemma drive_key_cons (a : ascii) (id key : string) :
  drive_key (String a id) key = String a (drive_key id key).
Proof. reflexivity. Qed.

Lemma drive_key_nil (key : string) : drive_key "" key = String "." key.
Proof. reflexivity. Qed.

(** Identifiers without a dot give keys that tell the drive and the key. *)
Lemma drive_key_inj (id1 id2 k1 k2 : string) :
  contains_char "." id1 = false ->
  contains_char "." id2 = false ->
  drive_key id1 k1 = drive_key id2 k2 ->
  id1 = id2 /\ k1 = k2.
Proof.
  revert id2. induction id1 as [|a id1 IH]; intros [|b id2] H1 H2;
    rewrite ?drive_key_cons, ?drive_key_nil; intros Heq.
  - by injection Heq as ->.
  - injection Heq as <- _. simpl in H2. discriminate H2.
  - injection Heq as -> _. simpl in H1. discriminate H1.
  - injection Heq as -> Hk. simpl in H1, H2.
    apply orb_false_iff in H1 as [_ H1]. apply orb_false_iff in H2 as [_ H2].
    by destruct (IH id2 H1 H2 Hk) as [-> ->].
Qed.

(** X12: two drives in one shared cache.  With identifiers that have no dot
    in them and differ, what one drive writes or deletes under any key
    leaves every entry of the other drive as it was; and a drive reads back
    what it wrote. *)
Theorem drive_cache_isolated (id1 id2 k1 k2 : string) (v : json)
    (c : gmap string json) :
  contains_char "." id1 = false ->
  contains_char "." id2 = false ->
  id1 <> id2 ->
  __getitem__ id2 (__setitem__ id1 c k1 v) k2 = __getitem__ id2 c k2 /\
  __getitem__ id2 (snd (__delitem__ id1 c k1)) k2 = __getitem__ id2 c k2 /\
  __getitem__ id1 (__setitem__ id1 c k1 v) k1 = Ok v.
Proof.
  intros H1 H2 Hne.
  assert (Hk : drive_key id1 k1 <> drive_key id2 k2).
  { intros Heq. by destruct (drive_key_inj id1 id2 k1 k2 H1 H2 Heq). }
  unfold __getitem__, __setitem__, __delitem__. split; [|split].
  - by rewrite lookup_insert_ne.
  - destruct (c !! drive_key id1 k1); simpl; [|done].
    by rewrite lookup_delete_ne.
  - by rewrite lookup_insert_eq.
Qed.

Lemma drive_cache_isolated_witness :
  __getitem__ "d2" (__setitem__ "d1" ∅ "/" (JNum 1)) "/" = __getitem__ "d2" ∅ "/" /\
  __getitem__ "d2" (snd (__delitem__ "d1" ∅ "/")) "/" = __getitem__ "d2" ∅ "/" /\
  __getitem__ "d1" (__setitem__ "d1" ∅ "/" (JNum 1)) "/" = Ok (JNum 1).
Proof.
  apply (drive_cache_isolated "d1" "d2" "/" "/" (JNum 1) ∅);
    [reflexivity | reflexivity | discriminate].
Defined.

End DriveKeys.

(** ** Authenticator: renewal, the request hook and the device-code flow *)

Section TokensMore.
Import Py Auth Cases MoreCases.





(** X15: the hook on outgoing requests.  A request that has an
    Authorization header is returned as it is, without a read of the token;
    a request without one, while a token is held and the clock is not past
    its expiry, gets [Bearer] and the token under that header, every other
    header is left as it was, and no request goes to the token endpoint. *)
Theorem __call___adds_bearer (a : auth) (hs : http_headers) (now : Z)
    (r : json) (now' : Z) (tok : string) :
  (is_Some (hs !! "authorization") ->
   __call__ a hs now r now' = (Ok hs, a, 0%nat)) /\
  (hs !! "authorization" = None ->
   _access_token a = JStr tok ->
   now <= expires a ->
   exists hs',
     __call__ a hs now r now' = (Ok hs', a, 0%nat) /\
     hs' !! "authorization" = Some ("Authorization", "Bearer " ++ tok) /\
     forall k, k <> "authorization" -> hs' !! k = hs !! k).
Proof.
  split.
  - intros H. unfold __call__. by rewrite bool_decide_eq_true_2.
  - intros Hnone Htok Hnow. unfold __call__. rewrite Hnone.
    rewrite bool_decide_eq_false_2 by (intros [? ?]; discriminate).
    unfold access_token. rewrite Htok. simpl.
    rewrite (proj2 (Z.ltb_ge _ _) Hnow). simpl.
    eexists. split; [reflexivity|]. split; [apply lookup_insert_eq|].
    intros k Hk. by rewrite lookup_insert_ne.
Qed.

Lemma __call___adds_bearer_witness :
  exists hs',
    __call__ signed_in {["accept" := ("Accept", "*/*")]} 1000000 JNull 0
      = (Ok hs', signed_in, 0%nat) /\
    hs' !! "authorization" = Some ("Authorization", "Bearer " ++ "at-1") /\
    forall k, k <> "authorization" ->
      hs' !! k = ({["accept" := ("Accept", "*/*")]} : http_headers) !! k.
Proof.
  destruct (__call___adds_bearer signed_in {["accept" := ("Accept", "*/*")]}
              1000000 JNull 0 "at-1") as [_ H].
  apply H; [reflexivity | reflexivity | simpl; lia].
Defined.

End TokensMore.

Section DeviceCodeMore.
Import Py Auth Cases MoreCases.






Lemma getitem_not_failure x k e :
  getitem x k = Raise e -> is_sign_in_failure e = false.
Proof.
  destruct x; simpl; try by intros [= <-]. destruct (assoc _ _); [done|].
  by intros [= <-].
Qed.

Lemma lifetime_not_failure x k e :
  rbind (getitem x k) timedelta_seconds = Raise e ->
  is_sign_in_failure e = false.
Proof.
  unfold rbind. destruct (getitem x k) as [v|e'] eqn:Hx.
  - destruct v; simpl; try done; by intros [= <-].
  - intros [= <-]. by eapply getitem_not_failure.
Qed.

(** X18: a sign-in that fails leaves the credential alone.  Whenever
    [authenticate] ends on [APIError] or on [AuthorizationTimeoutError], be
    it at the device-code request or in the polling loop, the access token,
    the expiry and the refresh token are those before the call. *)
Theorem authenticate_failure_keeps_credential (a a' : auth)
    (with_callback : bool) (r0 : json) (now0 : Z) (polls : list (Z * json))
    (now1 : Z) (e : exn) (sleeps : list Z) :
  authenticate a with_callback r0 now0 polls now1 = Some (Raise e, a', sleeps) ->
  is_sign_in_failure e = true ->
  a' = a.
Proof.
  unfold authenticate.
  destruct (has_key "error" r0) as [[|]|e0]; [by intros [= _ <-] | |
    by intros [= _ <-]].
  destruct (rbind (getitem r0 "expires_in") timedelta_seconds) as [delta|e1];
    [|by intros [= _ <-]].
  destruct (if with_callback then _ else _) as [m|e2]; [|by intros [= _ <-]].
  destruct (getitem r0 "device_code") as [dc|e3]; [|by intros [= _ <-]].
  destruct (getitem r0 "interval") as [interval|e4]; [|by intros [= _ <-]].
  destruct (poll_token (now0 + delta) interval polls) as [[data| |e5|] sl];
    [| by intros [= _ <-] | by intros [= _ <-] | done].
  destruct (rbind (getitem data "expires_in") timedelta_seconds)
    as [delta'|e6] eqn:H6.
  - destruct (getitem data "access_token") as [tok|e7] eqn:H7.
    + destruct data; intros [= <- _]; done.
    + intros [= <- _ _] Hf. apply getitem_not_failure in H7. congruence.
  - intros [= <- _ _] Hf. apply lifetime_not_failure in H6. congruence.
Qed.

Lemma authenticate_failure_keeps_credential_witness :
  authenticate signed_in false device_code_answer 0
    [(1000000, pending); (7000000, declined)] 8000000
    = Some (Raise (APIError declined), signed_in, [5]) /\
  is_sign_in_failure (APIError declined) = true /\
  signed_in = signed_in.
Proof.
  split; [reflexivity|]. split; [reflexivity|].
  apply (authenticate_failure_keeps_credential signed_in signed_in false
           device_code_answer 0 [(1000000, pending); (7000000, declined)]
           8000000 (APIError declined) [5]); reflexivity.
Defined.

Lemma authenticate_never_canceled_witness :
  fst (fst (Raise (A:=json) (APIError declined), signed_out, [5]))
    <> Raise (AuthorizationCanceledError "User canceled authorization").
Proof.
  apply (authenticate_never_canceled signed_out false device_code_answer 0
           [(1000000, pending); (7000000, declined)] 8000000).
  reflexivity.
Defined.

End DeviceCodeMore.

(** ** Persistent cache: more on the mapping *)

Section CacheMore.
Import Py DBDict.

Context {KT VT : Type}.
Variable api : dbapi.
Variable dumps : KT + VT -> blob.
Variable key_loads : blob -> KT.
Variable value_loads : blob -> VT.
Variable show : KT -> string.

(** X20: a [set] and a [delete] touch one key.  For two keys that are
    serialized differently, a [set] or a [delete] of the one, whether it
    succeeds or raises, leaves what a [get] of the other returns. *)
Theorem set_delete_frame (t : table) (k k' : KT) (v : VT) :
  dumps (inl k) <> dumps (inl k') ->
  __getitem__ api dumps value_loads show
    (snd (__setitem__ api dumps value_loads show t k v)) k'
    = __getitem__ api dumps value_loads show t k' /\
  __getitem__ api dumps value_loads show
    (snd (__delitem__ api dumps value_loads show t k)) k'
    = __getitem__ api dumps value_loads show t k'.
Proof.
  intros Hne. rewrite __setitem___table, __delitem___table,
    !__getitem___table. simpl. split.
  - by rewrite lookup_insert_ne.
  - destruct (t !! dumps (inl k)); simpl; [|done].
    by rewrite lookup_delete_ne.
Qed.

(** X21: membership across [delete] and [set].  A [delete] of a key that
    is not in the cache raises [KeyError] and changes nothing; a [delete]
    of a key that is in the cache succeeds and the key is not in the cache
    afterwards; after a [set] the key is in the cache. *)
Theorem delete_and_contains (t : table) (k : KT) :
  (__contains__ api dumps value_loads show t k = Ok false ->
   __delitem__ api dumps value_loads show t k = (Raise (KeyError (show k)), t)) /\
  (__contains__ api dumps value_loads show t k = Ok true ->
   exists t',
     __delitem__ api dumps value_loads show t k = (Ok tt, t') /\
     __contains__ api dumps value_loads show t' k = Ok false) /\
  (forall v : VT,
     __contains__ api dumps value_loads show
       (snd (__setitem__ api dumps value_loads show t k v)) k = Ok true).
Proof.
  rewrite __delitem___table, __contains___table. split; [|split].
  - destruct (t !! dumps (inl k)) as [b|] eqn:Hb; [|done].
    by rewrite bool_decide_eq_true_2 by (by eexists).
  - destruct (t !! dumps (inl k)) as [b|] eqn:Hb.
    + intros _. eexists. split; [reflexivity|].
      rewrite __contains___table, lookup_delete_eq.
      by rewrite bool_decide_eq_false_2 by (intros [? ?]; discriminate).
    + by rewrite bool_decide_eq_false_2 by (intros [? ?]; discriminate).
  - intros v. rewrite __setitem___table, __contains___table. simpl.
    rewrite lookup_insert_eq. by rewrite bool_decide_eq_true_2 by (by eexists).
Qed.

(** The table after a run of sets. *)
Lemma set_all_table (kvs : list (KT * VT)) (t : table) :
  set_all api dumps value_loads show t kvs =
    (Ok tt, foldl (fun t kv => <[dumps (inl kv.1) := dumps (inr kv.2)]> t) t kvs).
Proof.
  revert t. induction kvs as [|[k v] rest IH]; intros t; simpl; [done|].
  rewrite __setitem___table. apply IH.
Qed.

Lemma set_all_rows (kvs : list (KT * VT)) (t : table) (b : blob) :
  is_Some (foldl (fun t kv => <[dumps (inl kv.1) := dumps (inr kv.2)]> t) t kvs !! b)
  <-> is_Some (t !! b) \/ exists kv, kv ∈ kvs /\ b = dumps (inl kv.1).
Proof.
  revert t. induction kvs as [|[k v] rest IH]; intros t; simpl.
  - split; [by left|]. intros [H|(kv & Hin & _)]; [done|].
    by apply elem_of_nil in Hin.
  - rewrite IH. split.
    + intros [H|(kv & Hin & Hb)].
      * destruct (decide (dumps (inl k) = b)) as [<-|Hne].
        -- right. exists (k, v). split; [by left|done].
        -- left. by rewrite lookup_insert_ne in H.
      * right. exists kv. split; [by right|done].
    + intros [H|(kv & Hin & Hb)].
      * left. destruct (decide (dumps (inl k) = b)) as [<-|Hne].
        -- rewrite lookup_insert_eq. by eexists.
        -- by rewrite lookup_insert_ne.
      * apply elem_of_cons in Hin as [->|Hin].
        -- left. subst b. simpl. rewrite lookup_insert_eq. by eexists.
        -- right. by exists kv.
Qed.

(** X22: iterating after sets.  With a key codec that reads back what it
    wrote, a run of sets on an empty table succeeds and the keys the
    iteration then yields are the keys that were set, each one once. *)
Theorem iter_after_sets (kvs : list (KT * VT)) :
  (forall k : KT, key_loads (dumps (inl k)) = k) ->
  exists t ks,
    set_all api dumps value_loads show ∅ kvs = (Ok tt, t) /\
    __iter__ api key_loads t = Ok ks /\
    NoDup ks /\
    forall k, k ∈ ks <-> k ∈ kvs.*1.
Proof.
  intros Hcodec. eexists _, _. split; [apply set_all_table|].
  split; [reflexivity|].
  set (t := foldl _ ∅ kvs).
  assert (Hrow : forall b, b ∈ (map_to_list t).*1 <->
                   exists kv, kv ∈ kvs /\ b = dumps (inl kv.1)).
  { intros b. rewrite list_elem_of_fmap. split.
    - intros ([b' x] & -> & Hin). apply elem_of_map_to_list in Hin.
      assert (Hs : is_Some (t !! b')) by (by eexists).
      apply set_all_rows in Hs as [[? H]|H]; [|done].
      by rewrite lookup_empty in H.
    - intros Hkv.
      assert (Hs : is_Some (t !! b)) by (apply set_all_rows; by right).
      destruct Hs as [x Hx]. exists (b, x). split; [done|].
      by apply elem_of_map_to_list. }
  simpl. unfold fetchall. simpl.
  change (map key_loads ((map_to_list t).*1))
    with (key_loads <$> (map_to_list t).*1).
  split.
  - apply NoDup_fmap_2_strong; [|apply NoDup_fst_map_to_list].
    intros x y Hx Hy Heq. apply Hrow in Hx as (kx & _ & ->).
    apply Hrow in Hy as (ky & _ & ->). rewrite !Hcodec in Heq. by rewrite Heq.
  - intros k. rewrite list_elem_of_fmap. split.
    + intros (b & -> & Hb). apply Hrow in Hb as (kv & Hin & ->).
      rewrite Hcodec. by apply list_elem_of_fmap_2.
    + intros Hk. apply list_elem_of_fmap in Hk as (kv & -> & Hin).
      exists (dumps (inl kv.1)). split; [by rewrite Hcodec|].
      apply Hrow. by exists kv.
Qed.

End CacheMore.

Section CacheSizeMore.
Import Py DBDict.

Lemma iter_after_sets_witness :
  exists t ks,
    set_all sqlite3 plain_dumps plain_loads id ∅ [("a", "1"); ("b", "2"); ("a", "3")]
      = (Ok tt, t) /\
    __iter__ sqlite3 plain_loads t = Ok ks /\
    NoDup ks /\
    forall k, k ∈ ks <-> k ∈ [("a", "1"); ("b", "2"); ("a", "3")].*1.
Proof.
  apply (iter_after_sets sqlite3 plain_dumps plain_loads plain_loads id
           [("a", "1"); ("b", "2"); ("a", "3")]).
  intros k. reflexivity.
Defined.

Lemma delete_and_contains_witness :
  exists t',
    __delitem__ sqlite3 plain_dumps plain_loads id {["a" := "1"]} "a" = (Ok tt, t') /\
    __contains__ sqlite3 plain_dumps plain_loads id t' "a" = Ok false.
Proof.
  destruct (delete_and_contains sqlite3 plain_dumps plain_loads id
              {["a" := "1"]} "a") as (_ & H & _).
  apply H. reflexivity.
Defined.

Lemma set_delete_frame_witness :
  __getitem__ sqlite3 plain_dumps plain_loads id
    (snd (__setitem__ sqlite3 plain_dumps plain_loads id {["b" := "2"]} "a" "1")) "b"
    = __getitem__ sqlite3 plain_dumps plain_loads id {["b" := "2"]} "b" /\
  __getitem__ sqlite3 plain_dumps plain_loads id
    (snd (__delitem__ sqlite3 plain_dumps plain_loads id {["b" := "2"]} "a")) "b"
    = __getitem__ sqlite3 plain_dumps plain_loads id {["b" := "2"]} "b".
Proof.
  apply (set_delete_frame sqlite3 plain_dumps plain_loads id
           {["b" := "2"]} "a" "b" "1").
  discriminate.
Defined.

(** X23: the size on a driver that counts.  On a driver whose [rowcount]
    after a SELECT is the number of rows selected, the size after sets of
    pairwise distinct keys on an empty table is the number of sets. *)
Theorem len_counting_after_sets {KT VT : Type} (dumps : KT + VT -> blob)
    (value_loads : blob -> VT) (show : KT -> string) (kvs : list (KT * VT)) :
  NoDup (map (fun kv => dumps (inl (fst kv))) kvs) ->
  __len__ counting (snd (set_all counting dumps value_loads show ∅ kvs))
    = Ok (Z.of_nat (length kvs)).
Proof.
  intros Hnd.
  destruct (set_all_size counting dumps value_loads show kvs ∅ Hnd)
    as (t' & Hrun & Hsz).
  { intros kv _. apply lookup_empty. }
  rewrite Hrun. simpl snd. rewrite __len___counting, Hsz, map_size_empty.
  done.
Qed.

Lemma len_counting_after_sets_witness :
  __len__ counting
    (snd (set_all counting plain_dumps plain_loads id ∅ [("a", "1"); ("b", "2")]))
    = Ok (Z.of_nat (length [("a", "1"); ("b", "2")])).
Proof.
  apply (len_counting_after_sets plain_dumps plain_loads id
           [("a", "1"); ("b", "2")]).
  simpl. constructor; [|constructor; [|constructor]].
  - intros H. inversion H as [|? ? ? H']. inversion H'.
  - intros H. inversion H.
Defined.

(** X24: equality on the default driver.  Compared with a mapping that is
    not empty, a cache on [sqlite3] is unequal whatever it holds, since its
    own size is 0; compared with an empty mapping it is equal exactly when
    its table is empty. *)
Theorem __eq___sqlite3 {KT VT : Type} (dumps : KT + VT -> blob)
    (key_loads : blob -> KT) (value_loads : blob -> VT) (show : KT -> string)
    (other_len : Z) (other_get : KT -> option VT) (differ : VT -> VT -> bool)
    (t : table) :
  (other_len <> 0 ->
   __eq__ sqlite3 dumps key_loads value_loads show other_len other_get differ t
     = Ok false) /\
  (other_len = 0 -> (forall k, other_get k = None) ->
   __eq__ sqlite3 dumps key_loads value_loads show other_len other_get differ t
     = Ok (bool_decide (t = ∅))).
Proof.
  unfold __eq__. rewrite __len___sqlite3. split.
  - intros Hne. by rewrite (proj2 (Z.eqb_neq other_len 0) Hne).
  - intros -> Hget. simpl. unfold fetchall. simpl.
    destruct (map_to_list t) as [|[b x] rest] eqn:Hl.
    + apply map_to_list_empty_iff in Hl. subst t.
      by rewrite bool_decide_eq_true_2.
    + simpl. rewrite Hget.
      rewrite bool_decide_eq_false_2; [done|].
      intros ->. by rewrite map_to_list_empty in Hl.
Qed.

Lemma __eq___sqlite3_witness :
  __eq__ sqlite3 plain_dumps plain_loads plain_loads id 1
    (fun k => if String.eqb k "a" then Some "1" else None)
    (fun x y => negb (String.eqb x y)) {["a" := "1"]}
  = Ok false.
Proof.
  destruct (__eq___sqlite3 plain_dumps plain_loads plain_loads id 1
              (fun k => if String.eqb k "a" then Some "1" else None)
              (fun x y => negb (String.eqb x y)) {["a" := "1"]}) as [H _].
  apply H. lia.
Defined.

Lemma double_quotes_inj (s t : string) :
  double_quotes s = double_quotes t -> s = t.
Proof.
  revert t. induction s as [|a s IH]; intros [|b t]; simpl.
  - done.
  - by destruct (Ascii.eqb b "'").
  - by destruct (Ascii.eqb a "'").
  - destruct (Ascii.eqb_spec a "'") as [->|Ha];
      destruct (Ascii.eqb_spec b "'") as [->|Hb].
    + intros [= H]. by rewrite (IH t H).
    + intros [= <- _]. done.
    + intros [= -> _]. done.
    + intros [= -> H]. by rewrite (IH t H).
Qed.

Lemma snoc_inj (c : ascii) (x y : string) :
  x ++ String c "" = y ++ String c "" -> x = y.
Proof.
  revert y. induction x as [|a x IH]; intros [|b y].
  - done.
  - intros [= _ H]. by destruct y.
  - intros [= _ H]. by destruct x.
  - intros [= -> H]. by rewrite (IH y H).
Qed.

(** X25: quoting a table name loses nothing: two names that are quoted to
    the same text are the same name. *)
Theorem _quote_inj (s t : string) : _quote s = _quote t -> s = t.
Proof.
  unfold _quote. intros [= H]. by apply double_quotes_inj, snoc_inj with "'"%char.
Qed.

Lemma _quote_inj_witness : "it's" = "it's".
Proof. apply (_quote_inj "it's" "it's"). reflexivity. Defined.

End CacheSizeMore.

(** ** The filesystem calls *)

Section FsCalls.
Import Py FsApi Fs Cases MoreCases.

Variable pf : platform.
Variable py_str : json -> string.

Lemma get_item_by_path_Some (c : gmap string json) (path : string) (v : json) :
  c !! path = Some v -> get_item_by_path c path = Some path.
Proof.
  intros H. unfold get_item_by_path. rewrite H.
  by rewrite bool_decide_eq_true_2 by (by eexists).
Qed.

Lemma get_item_by_path_None (c : gmap string json) (path : string) :
  c !! path = None -> get_item_by_path c path = None.
Proof.
  intros H. unfold get_item_by_path. rewrite H.
  by rewrite bool_decide_eq_false_2 by (intros [? ?]; discriminate).
Qed.

(** The children the loop of [readdir] lists have an item entry each. *)
Lemma readdir_children_listed (c : gmap string json) (dir : string)
    (items : list json) (entries : list direntry) :
  readdir_children pf py_str c dir items = Ok entries ->
  Forall (fun e =>
            name e ∈ items /\
            exists folder,
              is_folder c (rstrip "/" dir ++ "/" ++ py_str (name e)) = Ok folder /\
              is_Some (c !! (rstrip "/" dir ++ "/" ++ py_str (name e))) /\
              type e = if folder : bool then S_IFDIR pf else S_IFREG pf)
         entries.
Proof.
  revert entries. induction items as [|item rest IH]; intros entries; simpl.
  - by intros [= <-].
  - unfold get_item_by_path.
    destruct (c !! (rstrip "/" dir ++ "/" ++ py_str item)) as [v|] eqn:Hv.
    + rewrite bool_decide_eq_true_2 by (by eexists). unfold rbind.
      destruct (is_folder c _) as [folder|e] eqn:Hf; [|done].
      destruct (readdir_children pf py_str c dir rest) as [es|e]; [|done].
      intros [= <-]. constructor.
      * simpl. split; [by left|]. exists folder. rewrite Hf, Hv.
        split; [done|]. split; [by eexists|done].
      * eapply Forall_impl; [by apply IH|]. intros e [Hin H].
        split; [by right|done].
    + rewrite bool_decide_eq_false_2 by (intros [? ?]; discriminate).
      intros H. eapply Forall_impl; [by apply IH|]. intros e [Hin H'].
      split; [by right|done].
Qed.

(** X26: [readdir].  An offset other than 0 is refused with [-ENOTSUP]
    whatever the directory; a listing starts with [.] and [..], and every
    further entry carries a name taken from the children of the directory
    whose path, the directory without its trailing slashes, a slash and the
    name, has an item in the cache; its type is that of a directory exactly
    when that item has a folder facet.  Children without an item are left
    out. *)
Theorem readdir_lists (c : gmap string json) (dir : string) (offset : Z) :
  (offset <> 0 -> readdir pf py_str c dir offset = Ok (inl (- ENOTSUP pf))) /\
  (forall entries,
     readdir pf py_str c dir 0 = Ok (inr entries) ->
     exists items rest,
       py_iter (default (JArr []) (c !! ("c" ++ dir))) = Ok items /\
       entries = mkDirentry (JStr ".") (S_IFDIR pf)
                 :: mkDirentry (JStr "..") (S_IFDIR pf) :: rest /\
       Forall (fun e =>
                 name e ∈ items /\
                 exists folder,
                   is_folder c (rstrip "/" dir ++ "/" ++ py_str (name e))
                     = Ok folder /\
                   is_Some (c !! (rstrip "/" dir ++ "/" ++ py_str (name e))) /\
                   type e = if folder : bool then S_IFDIR pf else S_IFREG pf)
              rest).
Proof.
  split.
  - intros Hne. unfold readdir.
    by rewrite (proj2 (Z.eqb_neq offset 0) Hne).
  - intros entries. unfold readdir. simpl.
    destruct (get_item_by_path c dir) as [folder|] eqn:Hg; [|done].
    assert (folder = dir) as ->.
    { unfold get_item_by_path in Hg.
      destruct (bool_decide _); by inversion Hg. }
    unfold rbind at 1. destruct (is_folder c dir) as [[|]|e] eqn:Hf;
      simpl; [|done|done].
    unfold children, rbind. rewrite Hf.
    destruct (py_iter _) as [items|e] eqn:Hit; [|done].
    destruct (readdir_children pf py_str c dir items) as [es|e] eqn:Hes;
      [|done].
    intros [= <-]. exists items, es. split; [done|]. split; [done|].
    by apply readdir_children_listed.
Qed.

(** X27: [read].  A path the cache does not hold gives [-ENOENT] without a
    request; for a file, a size of zero or less gives empty bytes without a
    request, and a positive size sends a request whose range header asks
    for the bytes from the offset to offset + size - 1. *)
Theorem read_window (http : request -> response) (id : string)
    (c : gmap string json) (path : string) (size offset : Z) :
  (c !! path = None ->
   read pf http id c path size offset = (Ok (inl (- ENOENT pf)), [])) /\
  (forall item, c !! path = Some item -> has_key "folder" item = Ok false ->
   (size <= 0 ->
    read pf http id c path size offset = (Ok (inr (Some "")), [])) /\
   (0 < size ->
    exists req reqs,
      snd (read pf http id c path size offset) = req :: reqs /\
      assoc "range" (headers req) =
        Some (JStr ("bytes=" ++ pretty offset ++ "-"
                    ++ pretty (offset + size - 1))))).
Proof.
  split.
  - intros Hc. unfold read. by rewrite get_item_by_path_None.
  - intros item Hc Hf. unfold read.
    rewrite (get_item_by_path_Some c path item Hc). split.
    + intros Hs.
      destruct (get_contents_window http id c path item Hc Hf) as [H _].
      by rewrite (H (Some offset) size Hs).
    + intros Hs. unfold get_contents, is_folder, data.
      rewrite Hc. simpl. rewrite Hf.
      rewrite (proj2 (Z.leb_gt size 0) Hs).
      set (rq := mkRequest _ _).
      assert (Hrange : assoc "range" (headers rq) =
                Some (JStr ("bytes=" ++ pretty offset ++ "-"
                            ++ pretty (offset + size - 1)))).
      { subst rq. simpl. unfold range_header.
        destruct (Z.eqb_spec size 0) as [->|_]; [lia|].
        destruct (Z.eqb_spec offset 0) as [->|_];
          by destruct (c !! ("t" ++ path)) as [[| | | | |]|]. }
      destruct (Z.eqb _ 304); [by exists rq, []|].
      destruct (Z.leb 400 _); [by exists rq, []|].
      destruct (next rq (http rq)) as [rq'|];
        [by exists rq, [rq']|by exists rq, []].
Qed.

End FsCalls.

Section FsCallsLinux.
Import Py FsApi Fs Cases MoreCases.

(** X28: [open] on Linux.  A path the cache does not hold, or holds as
    something that is not a file, gives [-ENOENT]; a file opened with a
    write access mode, the two low bits of the flags, gives [-ENOTSUP]; a
    file opened read-only succeeds. *)
Theorem open_on_linux (c : gmap string json) (path : string) (flags : Z) :
  (c !! path = None -> open linux c path flags = Ok (Some (-2))) /\
  (forall item (file : bool),
     c !! path = Some item -> has_key "file" item = Ok file ->
     open linux c path flags =
       Ok (if file
           then if Z.eqb (flags `mod` 4) 0 then None else Some (-95)
           else Some (-2))).
Proof.
  split.
  - intros Hc. unfold open. by rewrite get_item_by_path_None.
  - intros item file Hc Hf. unfold open.
    rewrite (get_item_by_path_Some c path item Hc).
    unfold is_file, data, rbind. rewrite Hc, Hf. destruct file; [|done].
    assert (H3 : Z.land flags (Z.lor (O_RDWR linux) (O_WRONLY linux))
                 = flags `mod` 4).
    { change (Z.lor (O_RDWR linux) (O_WRONLY linux)) with (Z.ones 2).
      by rewrite Z.land_ones by lia. }
    rewrite H3. cbn [negb]. by destruct (Z.eqb (flags `mod` 4) 0).
Qed.

Example rstrip_slashes :
  rstrip "/" "/" = "" /\ rstrip "/" "/docs//" = "/docs" /\
  rstrip "/" "/a/b" = "/a/b".
Proof. repeat split. Qed.

Lemma open_on_linux_witness :
  open linux {["/docs/report.txt" := report_item]} "/docs/report.txt" 32769
    = Ok (Some (-95)).
Proof.
  destruct (open_on_linux {["/docs/report.txt" := report_item]}
              "/docs/report.txt" 32769) as [_ H].
  apply (H report_item true); [apply lookup_singleton_eq | reflexivity].
Defined.

Lemma readdir_lists_witness :
  let c := cache (snd (apply_item report_item after_A)) in
  exists items rest,
    py_iter (default (JArr []) (c !! ("c" ++ "/docs"))) = Ok items /\
    [mkDirentry (JStr ".") 16384; mkDirentry (JStr "..") 16384;
     mkDirentry (JStr "report.txt") 32768]
      = mkDirentry (JStr ".") (S_IFDIR linux)
        :: mkDirentry (JStr "..") (S_IFDIR linux) :: rest /\
    Forall (fun e =>
              name e ∈ items /\
              exists folder,
                is_folder c (rstrip "/" "/docs" ++ "/" ++ str_of (name e))
                  = Ok folder /\
                is_Some (c !! (rstrip "/" "/docs" ++ "/" ++ str_of (name e))) /\
                type e = if folder : bool then S_IFDIR linux else S_IFREG linux)
           rest.
Proof.
  cbv zeta.
  destruct (readdir_lists linux str_of
              (cache (snd (apply_item report_item after_A))) "/docs" 0)
    as [_ H].
  apply H. vm_compute. reflexivity.
Defined.

Lemma read_window_witness :
  exists req reqs,
    snd (read linux five_bytes "d1" {["/docs/report.txt" := report_item]}
           "/docs/report.txt" 5 10) = req :: reqs /\
    assoc "range" (headers req) =
      Some (JStr ("bytes=" ++ pretty 10 ++ "-" ++ pretty (10 + 5 - 1))).
Proof.
  destruct (read_window linux five_bytes "d1"
              {["/docs/report.txt" := report_item]} "/docs/report.txt" 5 10)
    as [_ H].
  destruct (H report_item (lookup_singleton_eq _ _) eq_refl) as [_ H'].
  apply H'. lia.
Defined.

End FsCallsLinux.
